(** * Excel exporter of hairstyle_analyzer: a shallow embedding

    Source: [src/hairstyle_analyzer/core/excel_exporter.py], class
    [ExcelExporter].  The worksheet of openpyxl is modelled as a finite map
    from coordinates to cells, the file system as a finite map from paths to
    file contents, and the two public operations ([export],
    [get_binary_data]) run in a small state-and-exception monad whose
    environment decides which I/O call fails. *)

From Stdlib Require Import ZArith QArith Qminmax Qabs Lqa String Ascii List Lia.
From Stdlib Require Import Floats Uint63.
From stdpp Require Import base option list gmap sets strings.

Local Open Scope nat_scope.

(** ** Python values and strings *)

(** A Python [str] is a sequence of code points; [len] counts code points,
    so the Japanese header labels have the length a reader sees. *)
Abbreviation pystr := (list N).

(** What a cell can hold, as far as the exporter can tell values apart:
    [None], a string, or an object that openpyxl accepts (an instance of a
    numeric class, say) whose [__str__] raises. *)
Inductive value : Type :=
  | VNone
  | VStr (s : pystr)
  | VOpaque.

#[global] Instance value_eq_dec : EqDecision value.
Proof. solve_decision. Defined.

(** The text of ["None"], as [str(None)] gives it. *)
Definition str_None : pystr := [78; 111; 110; 101]%N.

(** [str(v)]; [None] on the Coq side means that the call raised. *)
Definition py_str (v : value) : option pystr :=
  match v with
  | VNone => Some str_None
  | VStr s => Some s
  | VOpaque => None
  end.

(** ** Styles (openpyxl.styles), with the arguments the exporter passes *)

Record Font : Type := mkFont
  { font_bold : bool; font_size : nat; font_color : string }.

Record PatternFill : Type := mkPatternFill
  { fill_start_color : string; fill_end_color : string; fill_type : string }.

Record Alignment : Type := mkAlignment
  { align_horizontal : option string;
    align_vertical : option string;
    align_wrap_text : option bool }.

Record Side : Type := mkSide { side_style : option string }.

Record Border : Type := mkBorder
  { border_left : Side; border_right : Side;
    border_top : Side; border_bottom : Side }.

(** A cell: its value and the four style attributes the exporter assigns.
    [None] in a style attribute is the default style of a fresh cell. *)
Record Cell : Type := mkCell
  { cell_value : value;
    cell_font : option Font;
    cell_fill : option PatternFill;
    cell_alignment : option Alignment;
    cell_border : option Border }.

(** [Cell(ws, row, column)]: a fresh cell. *)
Definition new_cell : Cell := mkCell VNone None None None None.

(** The style part of a cell. *)
Definition cell_style (c : Cell)
  : option Font * option PatternFill * option Alignment * option Border :=
  (cell_font c, cell_fill c, cell_alignment c, cell_border c).

(** ** The worksheet *)

(** Coordinates are (row, column), both 1-based.  Column letters are
    identified with their index: ["A"] is 1, ..., ["I"] is 9
    (openpyxl's [column_index_from_string] and [get_column_letter]). *)
Abbreviation coord := (nat * nat)%type.

Record Worksheet : Type := mkWorksheet
  { ws_title : pystr;
    ws_cells : gmap coord Cell;
    ws_widths : gmap nat Q }.

(** [openpyxl.Workbook().active]: no cell, no column dimension. *)
Definition new_sheet : Worksheet := mkWorksheet [] ∅ ∅.

Definition set_title (t : pystr) (sh : Worksheet) : Worksheet :=
  mkWorksheet t (ws_cells sh) (ws_widths sh).

(** Reading a coordinate without creating the cell. *)
Definition peek (sh : Worksheet) (r c : nat) : Cell :=
  default new_cell (ws_cells sh !! (r, c)).

(** [sheet.cell(row, column)] and [sheet["A1"]] create the cell when it is
    absent; [touch] is that side effect. *)
Definition touch (sh : Worksheet) (r c : nat) : Worksheet :=
  mkWorksheet (ws_title sh)
    (<[(r, c) := peek sh r c]> (ws_cells sh)) (ws_widths sh).

(** Get-or-create followed by an attribute assignment on the cell. *)
Definition update_cell (f : Cell → Cell) (sh : Worksheet) (r c : nat)
  : Worksheet :=
  mkWorksheet (ws_title sh)
    (<[(r, c) := f (peek sh r c)]> (ws_cells sh)) (ws_widths sh).

Definition with_value (v : value) (c : Cell) : Cell :=
  mkCell v (cell_font c) (cell_fill c) (cell_alignment c) (cell_border c).
Definition with_font (x : Font) (c : Cell) : Cell :=
  mkCell (cell_value c) (Some x) (cell_fill c) (cell_alignment c) (cell_border c).
Definition with_fill (x : PatternFill) (c : Cell) : Cell :=
  mkCell (cell_value c) (cell_font c) (Some x) (cell_alignment c) (cell_border c).
Definition with_alignment (x : Alignment) (c : Cell) : Cell :=
  mkCell (cell_value c) (cell_font c) (cell_fill c) (Some x) (cell_border c).
Definition with_border (x : Border) (c : Cell) : Cell :=
  mkCell (cell_value c) (cell_font c) (cell_fill c) (cell_alignment c) (Some x).

(** [sheet[f"{col}{row}"] = v] and [cell.value = v]. *)
Definition set_value (sh : Worksheet) (r c : nat) (v : value) : Worksheet :=
  update_cell (with_value v) sh r c.

(** ** Configuration and records *)

(** Modelled from the spec: [ExcelConfig] ([data/models.py] is not part of
    the sources).  The spec gives it as a mapping from column position
    (1-indexed) to header label, positions unique; a Python [dict] keyed by
    the column has exactly that shape. *)
Record ExcelConfig : Type := mkExcelConfig { headers : gmap nat pystr }.

(** Modelled from the spec: the record types behind [ProcessResultProtocol]
    ([data/models.py], [data/interfaces.py] are not part of the sources);
    only the attributes that [_add_data] reads are kept. *)
Record StylistInfo : Type := mkStylist { stylist_name : value }.
Record CouponInfo : Type := mkCoupon { coupon_name : value }.
Record Template : Type := mkTemplate
  { comment : value; title : value; menu : value; hashtag : value }.
Record AttributeAnalysis : Type := mkAttributes
  { sex : value; length_ : value }.
Record ProcessResult : Type := mkResult
  { selected_stylist : StylistInfo;
    selected_coupon : CouponInfo;
    selected_template : Template;
    attribute_analysis : AttributeAnalysis;
    image_name : value }.

(** ** [_set_headers] *)

(** [for col_letter, header_text in headers.items()].  A dict has each key
    once, so the assignments go to distinct cells and the order in which
    the entries are visited does not matter. *)

Definition _set_headers (config : ExcelConfig) (sheet : Worksheet)
  : Worksheet :=
  map_fold (λ col_letter header_text sh,
              set_value sh 1 col_letter (VStr header_text))
           sheet (headers config).

(** ** [_add_data] *)

(** The body of the loop: the nine assignments for row [i]. *)
Definition add_row (i : nat) (result : ProcessResult) (sheet : Worksheet)
  : Worksheet :=
  let sheet := set_value sheet i 1 (stylist_name (selected_stylist result)) in
  let sheet := set_value sheet i 2 (coupon_name (selected_coupon result)) in
  let sheet := set_value sheet i 3 (comment (selected_template result)) in
  let sheet := set_value sheet i 4 (title (selected_template result)) in
  let sheet := set_value sheet i 5 (sex (attribute_analysis result)) in
  let sheet := set_value sheet i 6 (length_ (attribute_analysis result)) in
  let sheet := set_value sheet i 7 (menu (selected_template result)) in
  let sheet := set_value sheet i 8 (hashtag (selected_template result)) in
  let sheet := set_value sheet i 9 (image_name result) in
  sheet.

(** [for i, result in enumerate(results, start=i)]. *)
Fixpoint add_rows (i : nat) (results : list ProcessResult)
    (sheet : Worksheet) : Worksheet :=
  match results with
  | [] => sheet
  | result :: rest => add_rows (S i) rest (add_row i result sheet)
  end.

Definition _add_data (sheet : Worksheet) (results : list ProcessResult)
  : Worksheet :=
  add_rows 2 results sheet.

(** ** [_adjust_column_widths] *)

(** [sheet.max_row] and [sheet.max_column]: 1 on a sheet without cells,
    otherwise the largest row (column) of a cell. *)
Definition rows_of (sh : Worksheet) : list nat :=
  (fst ∘ fst) <$> map_to_list (ws_cells sh).
Definition cols_of (sh : Worksheet) : list nat :=
  (snd ∘ fst) <$> map_to_list (ws_cells sh).

Definition max_row (sh : Worksheet) : nat :=
  match rows_of sh with [] => 1 | rows => max_list rows end.
Definition max_column (sh : Worksheet) : nat :=
  match cols_of sh with [] => 1 | cols => max_list cols end.

(** Python's [min(a, b)] and [max(a, b)] on two arguments: the first
    argument is returned unless the second is strictly smaller (larger). *)
Definition py_min (a b : Q) : Q := if Qle_bool a b then a else b.
Definition py_max (a b : Q) : Q := if Qle_bool b a then a else b.

(** One step of the inner loop: [len(str(cell.value))] is compared with the
    running maximum, and an exception of [str] is swallowed by the bare
    [except: pass]. *)
Definition scan_cell (max_length : nat) (cell : Cell) : nat :=
  match py_str (cell_value cell) with
  | Some s =>
      if bool_decide (max_length < length s) then length s else max_length
  | None => max_length
  end.

(** The width computed from [max_length].  The source multiplies by the
    float [1.1]; the model takes the product in the rationals, with 1.1
    read as 11/10.  [float_adjusted_width] below is the binary64
    computation, and [float_width_agrees] compares the two. *)
Definition adjusted_width (max_length : nat) : Q :=
  let adjusted_width := (inject_Z (Z.of_nat (max_length + 2)) * 1.1)%Q in
  let min_width := 10%Q in
  let max_width := 50%Q in
  py_max min_width (py_min max_width adjusted_width).

(** The same computation in binary64, as the interpreter performs it:
    the product is a float, and [min] and [max] return either that float or
    one of the integer bounds. *)
Inductive pynum : Type :=
  | PyInt (z : Z)
  | PyFloat (f : float).

Definition float_adjusted_width (max_length : nat) : pynum :=
  let adjusted_width :=
    PrimFloat.mul
      (PrimFloat.of_uint63 (Uint63.of_Z (Z.of_nat (max_length + 2))))
      1.1%float in
  let inner :=   (* min(max_width, adjusted_width) *)
    if PrimFloat.ltb adjusted_width 50%float
    then PyFloat adjusted_width else PyInt 50 in
  match inner with   (* max(min_width, inner) *)
  | PyInt z => if (10 <? z)%Z then PyInt z else PyInt 10
  | PyFloat f => if PrimFloat.ltb 10%float f then PyFloat f else PyInt 10
  end.

(** The rational that a finite float denotes. *)
Definition Q_of_float (f : float) : option Q :=
  match Prim2SF f with
  | S754_zero _ => Some 0%Q
  | S754_finite s m e =>
      let z := if s then Z.neg m else Z.pos m in
      Some (if (0 <=? e)%Z then inject_Z (z * 2 ^ e)
            else (z # (2 ^ Z.to_pos (- e)))%Q)
  | _ => None
  end.

Definition set_width (sh : Worksheet) (c : nat) (w : Q) : Worksheet :=
  mkWorksheet (ws_title sh) (ws_cells sh) (<[c := w]> (ws_widths sh)).

(** The cells of column [c], rows [1..mr], as [sheet.columns] yields them.
    Building the tuple creates the cells that were missing. *)
Definition column_tuple (sh : Worksheet) (mr c : nat) : list Cell :=
  (λ r, peek sh r c) <$> seq 1 mr.
Definition create_column (sh : Worksheet) (mr c : nat) : Worksheet :=
  foldl (λ s r, touch s r c) sh (seq 1 mr).

(** The body of the outer loop for column [c]. *)
Definition adjust_column (mr : nat) (sh : Worksheet) (c : nat) : Worksheet :=
  let column := column_tuple sh mr c in
  let sh := create_column sh mr c in
  let max_length := foldl scan_cell 0 column in
  set_width sh c (adjusted_width max_length).

(** [sheet.columns] is [iter_cols()]: empty on a sheet without cells,
    otherwise columns [1..max_column], each with rows [1..max_row], the
    bounds being read once, before the loop starts. *)
Definition _adjust_column_widths (sheet : Worksheet) : Worksheet :=
  match map_to_list (ws_cells sheet) with
  | [] => sheet
  | _ =>
      let mr := max_row sheet in
      let mc := max_column sheet in
      foldl (adjust_column mr) sheet (seq 1 mc)
  end.

(** ** [_apply_styles] *)

Definition header_font : Font := mkFont true 12 "FFFFFF".
Definition header_fill : PatternFill := mkPatternFill "4472C4" "4472C4" "solid".
Definition header_alignment : Alignment :=
  mkAlignment (Some "center"%string) (Some "center"%string) (Some true).
Definition thin_border : Border :=
  mkBorder (mkSide (Some "thin"%string)) (mkSide (Some "thin"%string))
           (mkSide (Some "thin"%string)) (mkSide (Some "thin"%string)).
Definition data_alignment : Alignment :=
  mkAlignment None (Some "center"%string) (Some true).

(** The body of the header loop. *)
Definition style_header_cell (sh : Worksheet) (col : nat) : Worksheet :=
  update_cell (λ cell,
      let cell := with_font header_font cell in
      let cell := with_fill header_fill cell in
      let cell := with_alignment header_alignment cell in
      with_border thin_border cell) sh 1 col.

(** The body of the inner data loop, with its special case for column H. *)
Definition style_data_cell (row : nat) (sh : Worksheet) (col : nat)
  : Worksheet :=
  update_cell (λ cell,
      let cell := with_alignment data_alignment cell in
      let cell := with_border thin_border cell in
      if decide (col = 8)
      then with_alignment
             (mkAlignment None (Some "center"%string) (Some true)) cell
      else cell) sh row col.

Definition style_data_row (ncols : nat) (sh : Worksheet) (row : nat)
  : Worksheet :=
  foldl (style_data_cell row) sh (seq 1 ncols).

Definition _apply_styles (config : ExcelConfig) (sheet : Worksheet)
    (row_count : nat) : Worksheet :=
  let ncols := size (headers config) in
  let sheet := foldl style_header_cell sheet (seq 1 ncols) in
  foldl (style_data_row ncols) sheet (seq 2 row_count).

(** ** The construction pipeline shared by [export] and [get_binary_data] *)

(** The sheet title, a constant of the source (eight katakana). *)
Definition sheet_title : pystr :=
  [12473; 12479; 12452; 12523; 12479; 12452; 12488; 12523]%N.

Definition build_sheet (config : ExcelConfig) (results : list ProcessResult)
  : Worksheet :=
  let sheet := set_title sheet_title new_sheet in
  let sheet := _set_headers config sheet in
  let sheet := _add_data sheet results in
  let sheet := _adjust_column_widths sheet in
  _apply_styles config sheet (length results).

(** ** Paths (pathlib) and time stamps *)

Local Open Scope string_scope.

Record Path : Type := mkPath { path_parent : string; path_name : string }.

#[global] Instance Path_eq_dec : EqDecision Path.
Proof. solve_decision. Defined.

#[global] Program Instance Path_countable : Countable Path :=
  inj_countable' (λ p, (path_parent p, path_name p))
                 (λ q, mkPath (fst q) (snd q)) _.
Next Obligation. by intros []. Qed.

(** [str(path)]. *)
Definition path_str (p : Path) : string :=
  path_parent p ++ "/" ++ path_name p.

Fixpoint str_take (n : nat) (s : string) : string :=
  match n, s with
  | S n', String a s' => String a (str_take n' s')
  | _, _ => EmptyString
  end.

Fixpoint str_drop (n : nat) (s : string) : string :=
  match n, s with
  | S n', String _ s' => str_drop n' s'
  | _, _ => s
  end.

(** [name.rfind('.')]: the index of the last dot, if there is one. *)
Fixpoint rfind_dot (s : string) : option nat :=
  match s with
  | EmptyString => None
  | String a s' =>
      match rfind_dot s' with
      | Some i => Some (S i)
      | None => if Ascii.eqb a "."%char then Some 0 else None
      end
  end.

(** [PurePath.stem] and [PurePath.suffix]: the name is split at its last
    dot when [0 < i < len(name) - 1]. *)
Definition split_name (name : string) : string * string :=
  match rfind_dot name with
  | Some i =>
      if bool_decide (0 < i ∧ i < String.length name - 1)
      then (str_take i name, str_drop i name)
      else (name, "")
  | None => (name, "")
  end.
Definition stem (p : Path) : string := fst (split_name (path_name p)).
Definition suffix (p : Path) : string := snd (split_name (path_name p)).

(** [path.with_name(name)]: same directory, another name. *)
Definition with_name (p : Path) (name : string) : Path :=
  mkPath (path_parent p) name.

Record datetime : Type := mkDatetime
  { dt_year : nat; dt_month : nat; dt_day : nat;
    dt_hour : nat; dt_minute : nat; dt_second : nat }.

Definition digit (n : nat) : ascii := ascii_of_nat (48 + n mod 10).
Definition pad2 (n : nat) : string :=
  String (digit (n / 10)) (String (digit n) "").
Definition pad4 (n : nat) : string :=
  String (digit (n / 1000)) (String (digit (n / 100)) (pad2 n)).

(** [t.strftime("%Y%m%d_%H%M%S")]. *)
Definition strftime (t : datetime) : string :=
  pad4 (dt_year t) ++ pad2 (dt_month t) ++ pad2 (dt_day t) ++ "_"
  ++ pad2 (dt_hour t) ++ pad2 (dt_minute t) ++ pad2 (dt_second t).

(** ** Exceptions *)

(** [Underlying msg] is any exception that is not an [ExcelExportError]
    (an [OSError] of the file system, an error of the serializer); [msg] is
    its [str].  [ExcelExportError] carries its message, the [output_path]
    keyword and the exception it was raised [from]. *)
Inductive pyexc : Type :=
  | Underlying (msg : string)
  | ExcelExportError (message : string) (output_path : option string)
                     (cause : option pyexc).

Definition exc_str (e : pyexc) : string :=
  match e with
  | Underlying msg => msg
  | ExcelExportError message _ _ => message
  end.

Definition is_export_error (e : pyexc) : bool :=
  match e with ExcelExportError _ _ _ => true | Underlying _ => false end.

(** ** The file system and the environment *)

(** What a file holds: bytes written by somebody else, a workbook as
    [workbook.save] serialized it (with the time of the save, which the
    document properties record), or the remains of a save that failed
    midway. *)
Inductive content : Type :=
  | Raw (bytes : list N)
  | Xlsx (saved_at : datetime) (sheet : Worksheet)
  | Truncated.

(** The places of the source where an I/O call can raise. *)
Inductive site : Type :=
  | AtMkdir          (* export: output_path.parent.mkdir *)
  | AtCopy           (* _create_backup: shutil.copy2 *)
  | AtSave           (* export: workbook.save(output_path) *)
  | AtTmpCreate      (* get_binary_data: NamedTemporaryFile(...) *)
  | AtTmpClose       (* get_binary_data: leaving the with block *)
  | AtTmpSave        (* get_binary_data: workbook.save(tmp_path) *)
  | AtRead           (* get_binary_data: open(tmp_path, 'rb') and f.read() *)
  | AtUnlink         (* get_binary_data: os.unlink in the try block *)
  | AtCleanupUnlink. (* get_binary_data: os.unlink in the except block *)

(** The world a call runs in.  [faults] says, for each site, whether the
    call made there raises (and with which message); every site is reached
    at most once per call of [export] or [get_binary_data].
    [partial_write] says whether a save that fails has already truncated
    its target.  [next_tmp] is the name that [NamedTemporaryFile] picks.
    [failed_copy_leaves] is what a [shutil.copy2] that fails leaves at its
    destination: nothing, or a file (truncated, or complete when only the
    copying of the metadata failed).  [failed_mkdir_creates] is the number
    of directories that a failing [mkdir(parents=True)] had created before
    it failed. *)
Record World : Type := mkWorld
  { files : gmap Path content;
    dirs : gset string;
    faults : site → option string;
    partial_write : bool;
    clock : datetime;
    next_tmp : Path;
    failed_copy_leaves : option content;
    failed_mkdir_creates : nat }.

Definition with_files (f : gmap Path content → gmap Path content)
    (w : World) : World :=
  mkWorld (f (files w)) (dirs w) (faults w) (partial_write w) (clock w)
          (next_tmp w) (failed_copy_leaves w) (failed_mkdir_creates w).
Definition with_dirs (f : gset string → gset string) (w : World) : World :=
  mkWorld (files w) (f (dirs w)) (faults w) (partial_write w) (clock w)
          (next_tmp w) (failed_copy_leaves w) (failed_mkdir_creates w).

(** ** The monad: state and exceptions *)

Inductive outcome (A : Type) : Type :=
  | Ok (a : A)
  | Raise (e : pyexc).
Arguments Ok {A} a.
Arguments Raise {A} e.

Definition M (A : Type) : Type := World → outcome A * World.

#[global] Instance M_ret : MRet M := λ A a w, (Ok a, w).
#[global] Instance M_bind : MBind M := λ A B f m w,
  match m w with
  | (Ok a, w') => f a w'
  | (Raise e, w') => (Raise e, w')
  end.

Definition raise {A} (e : pyexc) : M A := λ w, (Raise e, w).

(** [try: body except Exception as e: handler(e)]. *)
Definition try_except {A} (body : M A) (handler : pyexc → M A) : M A :=
  λ w, match body w with
       | (Raise e, w') => handler e w'
       | ok => ok
       end.

(** An I/O call at site [s]: it raises if the environment says so, leaving
    [on_fail] behind, and has its effect otherwise. *)
Definition io (s : site) (effect on_fail : World → World) : M unit :=
  λ w, match faults w s with
       | Some msg => (Raise (Underlying msg), on_fail w)
       | None => (Ok (), effect w)
       end.

(** The prefixes of a path that end just before a slash, outermost
    first; [done_] is the part already read. *)
Fixpoint slash_prefixes (done_ s : string) : list string :=
  match s with
  | EmptyString => []
  | String a s' =>
      (if Ascii.eqb a "/"%char then [done_] else [])
      ++ slash_prefixes (done_ ++ String a EmptyString) s'
  end.

(** The directory [d] and its ancestors, outermost first: what
    [mkdir(parents=True)] makes sure exists.  The root and the current
    directory are not listed; [d] is taken in pathlib's normal form. *)
Definition parents_of (d : string) : list string :=
  filter (λ x : string, x ≠ EmptyString) (slash_prefixes EmptyString d)
  ++ [d].

(** [parent.mkdir(parents=True, exist_ok=True)]: the missing ancestors are
    created from the outermost on, then the directory itself; a call that
    fails leaves behind the directories it had created. *)
Definition mkdir_parents (d : string) : M unit :=
  λ w, io AtMkdir
          (with_dirs (λ ds, list_to_set (parents_of d) ∪ ds))
          (with_dirs (λ ds,
             list_to_set (take (failed_mkdir_creates w) (parents_of d)) ∪ ds))
          w.

(** [path.exists()], [os.path.exists(path)]; only regular files are
    tracked. *)
Definition path_exists (p : Path) : M bool :=
  λ w, (Ok (bool_decide (is_Some (files w !! p))), w).

(** [shutil.copy2(src, dst)]: the data, then the metadata.  A call that
    fails may already have opened, or written, the destination. *)
Definition copy2 (src dst : Path) : M unit :=
  λ w, match files w !! src with
       | None => (Raise (Underlying "FileNotFoundError"), w)
       | Some c =>
           if decide (src = dst)
           then (Raise (Underlying "SameFileError"), w)
           else io AtCopy (with_files (<[dst := c]>))
                   (match failed_copy_leaves w with
                    | Some leftover => with_files (<[dst := leftover]>)
                    | None => id
                    end) w
       end.

(** [workbook.save(p)] at site [s]. *)
Definition workbook_save (s : site) (sheet : Worksheet) (p : Path)
  : M unit :=
  λ w, io s (with_files (<[p := Xlsx (clock w) sheet]>))
            (if partial_write w then with_files (<[p := Truncated]>) else id)
          w.

(** [with tempfile.NamedTemporaryFile(suffix='.xlsx', delete=False)]: an
    empty file appears under the fresh name. *)
Definition tmp_create : M Path :=
  λ w, match io AtTmpCreate (with_files (<[next_tmp w := Raw []]>)) id w with
       | (Ok _, w') => (Ok (next_tmp w), w')
       | (Raise e, w') => (Raise e, w')
       end.
Definition tmp_close : M unit := io AtTmpClose id id.

(** [open(p, 'rb')] and [f.read()]. *)
Definition read_file (p : Path) : M content :=
  λ w, match files w !! p with
       | None => (Raise (Underlying "FileNotFoundError"), w)
       | Some c =>
           match io AtRead id id w with
           | (Ok _, w') => (Ok c, w')
           | (Raise e, w') => (Raise e, w')
           end
       end.

(** [os.unlink(p)] at site [s]. *)
Definition unlink (s : site) (p : Path) : M unit :=
  λ w, match files w !! p with
       | None => (Raise (Underlying "FileNotFoundError"), w)
       | Some _ => io s (with_files (delete p)) id w
       end.

Definition now : M datetime := λ w, (Ok (clock w), w).

(** ** Messages *)

Definition export_message : string := "Excel出力処理でエラーが発生しました".
Definition save_message : string := "Excelファイルの保存に失敗しました: ".
Definition binary_message : string :=
  "Excelバイナリデータの生成でエラーが発生しました".
Definition binary_failed_message : string :=
  "Excelバイナリデータの生成に失敗しました: ".

(** ** The error boundary *)

(** Modelled from the spec: the decorator [with_error_handling]
    ([utils/errors.py] is not part of the sources).  The spec has every
    underlying failure caught at the operation boundary and re-raised as the
    export error, the original failure kept as its cause, and has the export
    error carry the target path for file export; an export error raised
    inside passes unchanged.  [target] is the path of the file export, and
    [None] for the byte export. *)
Definition with_error_handling {A} (message : string) (target : option Path)
    (body : M A) : M A :=
  λ w, match body w with
       | (Raise (Underlying msg), w') =>
           (Raise (ExcelExportError message (path_str <$> target)
                                    (Some (Underlying msg))), w')
       | other => other
       end.

(** ** [_create_backup] *)

Definition backup_name (file_path : Path) (timestamp : string) : string :=
  stem file_path ++ "_" ++ timestamp ++ "_backup" ++ suffix file_path.

Definition _create_backup (file_path : Path) : M Path :=
  t ← now;
  let timestamp := strftime t in
  let backup_path := with_name file_path (backup_name file_path timestamp) in
  _ ← copy2 file_path backup_path;
  mret backup_path.

(** ** [export] *)

(** The function under the decorator.  The calls of the logger are left
    out: they write to no state that the exporter reads. *)
Definition export_body (config : ExcelConfig) (results : list ProcessResult)
    (output_path : Path) : M Path :=
  _ ← mkdir_parents (path_parent output_path);
  existing ← path_exists output_path;
  _ ← (if existing : bool
       then _ ← _create_backup output_path; mret ()
       else mret ());
  let sheet := build_sheet config results in
  try_except
    (_ ← workbook_save AtSave sheet output_path; mret output_path)
    (λ e, raise (ExcelExportError (save_message ++ exc_str e)
                                  (Some (path_str output_path)) (Some e))).

Definition export (config : ExcelConfig) (results : list ProcessResult)
    (output_path : Path) : M Path :=
  with_error_handling export_message (Some output_path)
    (export_body config results output_path).

(** ** [get_binary_data] *)

(** The [except] block.  [tmp_path] is [Some p] when the local variable is
    bound ([tmp_path in locals()]). *)
Definition cleanup_and_raise {A} (tmp_path : option Path) (e : pyexc)
  : M A :=
  _ ← match tmp_path with
      | Some p =>
          still_there ← path_exists p;
          if still_there : bool then unlink AtCleanupUnlink p else mret ()
      | None => mret ()
      end;
  raise (ExcelExportError (binary_failed_message ++ exc_str e) None (Some e)).

(** The function under the decorator.  The [try] block is split where
    [tmp_path] becomes bound, so that the handler knows whether it is. *)
Definition get_binary_data_body (config : ExcelConfig)
    (results : list ProcessResult) : M content :=
  let sheet := build_sheet config results in
  λ w, match tmp_create w with
       | (Raise e, w1) => cleanup_and_raise None e w1
       | (Ok tmp_path, w1) =>
           match (_ ← tmp_close;
                  _ ← workbook_save AtTmpSave sheet tmp_path;
                  binary_data ← read_file tmp_path;
                  _ ← unlink AtUnlink tmp_path;
                  mret binary_data) w1 with
           | (Raise e, w2) => cleanup_and_raise (Some tmp_path) e w2
           | done => done
           end
       end.

Definition get_binary_data (config : ExcelConfig)
    (results : list ProcessResult) : M content :=
  with_error_handling binary_message None
    (get_binary_data_body config results).


Local Close Scope string_scope.

(** * Notions used in the statements *)

(** What a sheet transformer may leave alone.  [keeps_cells]: no cell
    disappears.  [keeps_values]: the value read at every coordinate stays.
    [keeps_styles]: the style read at every coordinate stays. *)
Definition keeps_cells (op : Worksheet → Worksheet) : Prop :=
  ∀ sh rc, is_Some (ws_cells sh !! rc) → is_Some (ws_cells (op sh) !! rc).
Definition keeps_values (op : Worksheet → Worksheet) : Prop :=
  ∀ sh r c, cell_value (peek (op sh) r c) = cell_value (peek sh r c).
Definition keeps_styles (op : Worksheet → Worksheet) : Prop :=
  ∀ sh r c, cell_style (peek (op sh) r c) = cell_style (peek sh r c).
Definition keeps_widths (op : Worksheet → Worksheet) : Prop :=
  ∀ sh, ws_widths (op sh) = ws_widths sh.

(** The nine fields of a record in the order of the columns A to I. *)
Definition fields_in_order (result : ProcessResult) : list value :=
  [ stylist_name (selected_stylist result);
    coupon_name (selected_coupon result);
    comment (selected_template result);
    title (selected_template result);
    sex (attribute_analysis result);
    length_ (attribute_analysis result);
    menu (selected_template result);
    hashtag (selected_template result);
    image_name result ].

(** The value stored at a coordinate, if the sheet has a cell there. *)
Definition value_at (sh : Worksheet) (r c : nat) : option value :=
  cell_value <$> ws_cells sh !! (r, c).

(** Assignments to several columns of one row. *)
Definition write_cells (i : nat) (sh : Worksheet) (l : list (nat * value))
  : Worksheet :=
  foldl (λ s cv, set_value s i cv.1 cv.2) sh l.

(** The length that a value contributes to the width of its column:
    [len(str(v))], and 0 when [str] raises. *)
Definition str_len0 (v : value) : nat :=
  match py_str v with Some s => length s | None => 0 end.

(** The values of the cells that the sheet has in column [c]. *)
Definition column_values (sh : Worksheet) (c : nat) : list value :=
  (λ kv : coord * Cell, cell_value kv.2)
    <$> filter (λ kv : coord * Cell, kv.1.2 = c) (map_to_list (ws_cells sh)).

(** The longest stringified value of column [c]. *)
Definition max_length (sh : Worksheet) (c : nat) : nat :=
  max_list (str_len0 <$> column_values sh c).

(** The same maximum over rows [1..mr], a missing cell read as empty. *)
Definition grid_max (sh : Worksheet) (mr c : nat) : nat :=
  max_list ((λ r, str_len0 (cell_value (peek sh r c))) <$> seq 1 mr).

(** [clamp x lo hi] and the width as the spec writes it. *)
Definition clamp (x lo hi : Q) : Q :=
  if Qlt_le_dec x lo then lo else if Qlt_le_dec hi x then hi else x.
Definition width_formula (m : nat) : Q :=
  clamp ((inject_Z (Z.of_nat m) + 2) * 1.1)%Q 10%Q 50%Q.

(** The invariant of openpyxl's cell store: rows and columns start at 1. *)
Definition coords_positive (sh : Worksheet) : Prop :=
  map_Forall (λ (rc : coord) (_ : Cell), 1 ≤ rc.1 ∧ 1 ≤ rc.2) (ws_cells sh).

#[global] Instance coords_positive_dec sh : Decision (coords_positive sh).
Proof. unfold coords_positive. apply _. Defined.

(** The sheet after the two writing steps, before widths and styles. *)
Definition written_sheet (config : ExcelConfig)
    (results : list ProcessResult) : Worksheet :=
  _add_data (_set_headers config (set_title sheet_title new_sheet)) results.

(** A maximal length whose width falls strictly between the two bounds
    before clamping. *)
Definition inside_bounds (m : nat) : Prop :=
  (10 < (inject_Z (Z.of_nat m) + 2) * 1.1)%Q
  ∧ ((inject_Z (Z.of_nat m) + 2) * 1.1 < 50)%Q.

(** One style function applied at several coordinates, in order. *)
Definition update_cells (F : Cell → Cell) (sh : Worksheet)
    (coords : list coord) : Worksheet :=
  foldl (λ s rc, update_cell F s rc.1 rc.2) sh coords.

(** What the header loop and the general data loop assign to a cell. *)
Definition header_style_of (cell : Cell) : Cell :=
  with_border thin_border
    (with_alignment header_alignment
       (with_fill header_fill (with_font header_font cell))).
Definition data_style_of (cell : Cell) : Cell :=
  with_border thin_border (with_alignment data_alignment cell).

(** The coordinates visited by the two loops of [_apply_styles]. *)
Definition header_coords (ncols : nat) : list coord :=
  (λ col, (1, col)) <$> seq 1 ncols.
Definition row_coords (ncols row : nat) : list coord :=
  (λ col, (row, col)) <$> seq 1 ncols.
Definition data_coords (ncols row_count : nat) : list coord :=
  seq 2 row_count ≫= row_coords ncols.

(** The worksheet inside a file content, if it is a saved workbook. *)
Definition sheet_of (c : content) : option Worksheet :=
  match c with Xlsx _ sh => Some sh | _ => None end.

(** The shape of a sheet: which columns are populated, the values of the
    header row, and the column widths. *)
Definition populated_columns (sh : Worksheet) : gset nat :=
  list_to_set (cols_of sh).
Definition same_shape (sh1 sh2 : Worksheet) : Prop :=
  populated_columns sh1 = populated_columns sh2
  ∧ (∀ c, value_at sh1 1 c = value_at sh2 1 c)
  ∧ ws_widths sh1 = ws_widths sh2.

(** The path of the backup of [p] made at time [t]. *)
Definition backup_path (p : Path) (t : datetime) : Path :=
  with_name p (stem p ++ "_" ++ strftime t ++ "_backup" ++ suffix p)%string.

(** The binary64 width agrees with the rational one: the same bound when
    clamped, and otherwise strictly between the bounds and within [2^-40]. *)
Definition float_agrees (m : nat) : bool :=
  match float_adjusted_width m with
  | PyInt z => Qeq_bool (inject_Z z) (adjusted_width m)
  | PyFloat f =>
      match Q_of_float f with
      | Some q =>
          Qle_bool (Qabs (q - adjusted_width m)) (1 # 2 ^ 40)
          && negb (Qle_bool (adjusted_width m) 10)
          && negb (Qle_bool 50 (adjusted_width m))
      | None => false
      end
  end.

(** * Concrete data for the examples *)

(** The code points of an ASCII literal. *)
Definition ascii_text (s : string) : pystr :=
  N_of_ascii <$> list_ascii_of_string s.

(** The nine header labels of the default configuration, columns A to I. *)
Definition example_config : ExcelConfig :=
  mkExcelConfig (list_to_map
    [ (1, [12473; 12479; 12452; 12522; 12473; 12488]%N);
      (2, [12463; 12540; 12509; 12531]%N);
      (3, [12467; 12513; 12531; 12488]%N);
      (4, [12473; 12479; 12452; 12523]%N);
      (5, [24615; 21029]%N);
      (6, [38263; 12373]%N);
      (7, [12513; 12491; 12517; 12540]%N);
      (8, [12495; 12483; 12471; 12517; 12479; 12464]%N);
      (9, [30011; 20687]%N) ]).

Definition example_result : ProcessResult :=
  mkResult (mkStylist (VStr (ascii_text "Sato")))
           (mkCoupon (VStr (ascii_text "Cut and color")))
           (mkTemplate (VStr (ascii_text "Soft bob with a light fringe"))
                       (VStr (ascii_text "Bob"))
                       (VStr (ascii_text "Cut+Color"))
                       (VStr (ascii_text "#bob #short")))
           (mkAttributes (VStr (ascii_text "F")) (VStr (ascii_text "Short")))
           (VStr (ascii_text "a.jpg")).

Definition example_results : list ProcessResult :=
  [example_result; example_result].

(** Worlds.  In [quiet_world] no I/O call fails and the target file does
    not exist; [world_with_old_file] has a file at the target;
    in [locked_world] every [os.unlink] raises (a file held open by another
    process, say). *)
Definition example_target : Path := mkPath "out" "styles.xlsx".
Definition example_clock : datetime := mkDatetime 2026 11 4 9 30 5.
Definition example_tmp : Path := mkPath "/tmp" "tmpk3v9x2.xlsx".

Definition quiet_world : World :=
  mkWorld ∅ ∅ (λ _, None) false example_clock example_tmp None 0.

Definition world_with_old_file : World :=
  mkWorld {[ example_target := Raw [80; 75; 3; 4]%N ]} {[ "out"%string ]}
          (λ _, None) false example_clock example_tmp None 0.

Definition locked_world : World :=
  mkWorld ∅ ∅
    (λ s, match s with
          | AtUnlink | AtCleanupUnlink => Some "PermissionError"%string
          | _ => None
          end)
    false example_clock example_tmp None 0.

(** A record whose comment is an object that [str] cannot render, and the
    sheet written from it and an ordinary record. *)
Definition odd_result : ProcessResult :=
  mkResult (mkStylist (VStr (ascii_text "Ito")))
           (mkCoupon VNone)
           (mkTemplate VOpaque
                       (VStr (ascii_text "Layered cut"))
                       (VStr (ascii_text "Cut"))
                       (VStr (ascii_text "#layer")))
           (mkAttributes (VStr (ascii_text "M")) (VStr (ascii_text "Medium")))
           (VStr (ascii_text "b.jpg")).

Definition example_written : Worksheet :=
  written_sheet example_config [example_result; odd_result].

(** Worlds in which one call fails. *)
Definition disk_full_world : World :=
  mkWorld ∅ ∅
    (λ s, match s with
          | AtTmpSave | AtSave => Some "No space left on device"%string
          | _ => None
          end)
    true example_clock example_tmp None 0.

Definition mkdir_denied_world : World :=
  mkWorld ∅ ∅
    (λ s, match s with
          | AtMkdir => Some "Permission denied"%string
          | _ => None
          end)
    false example_clock example_tmp None 0.

(** * Further notions and data *)

(** A config whose columns are not [1..n]: labels in columns A and C. *)
Definition sparse_config : ExcelConfig :=
  mkExcelConfig (list_to_map [ (1, ascii_text "Stylist");
                               (3, ascii_text "Comment") ]).

(** A config with a tenth column, beyond the nine that [_add_data] fills. *)
Definition wide_config : ExcelConfig :=
  mkExcelConfig (list_to_map
    [ (1, ascii_text "Stylist"); (2, ascii_text "Coupon");
      (3, ascii_text "Comment"); (4, ascii_text "Title");
      (5, ascii_text "Sex"); (6, ascii_text "Length");
      (7, ascii_text "Menu"); (8, ascii_text "Hashtag");
      (9, ascii_text "Image"); (10, ascii_text "Note") ]).

(** The style of a cell that no step has styled. *)
Definition no_style
  : option Font * option PatternFill * option Alignment * option Border :=
  (None, None, None, None).

(** Worlds with an existing target in which the backup copy, or the save,
    fails; the failed copy leaves a truncated backup behind, and the failed
    save has already truncated its target. *)
Definition copy_denied_world : World :=
  mkWorld {[ example_target := Raw [80; 75; 3; 4]%N ]} {[ "out"%string ]}
    (λ s, match s with
          | AtCopy => Some "No space left on device"%string
          | _ => None
          end)
    false example_clock example_tmp (Some Truncated) 0.

Definition save_fails_world : World :=
  mkWorld {[ example_target := Raw [80; 75; 3; 4]%N ]} {[ "out"%string ]}
    (λ s, match s with
          | AtSave => Some "No space left on device"%string
          | _ => None
          end)
    true example_clock example_tmp None 0.

(** The ranges of the fields of a Python [datetime] (the year is at most
    9999, written below without a large literal). *)
Definition valid_datetime (t : datetime) : Prop :=
  1 ≤ dt_year t < 100 * 100 ∧ 1 ≤ dt_month t ≤ 12 ∧ 1 ≤ dt_day t ≤ 31
  ∧ dt_hour t < 24 ∧ dt_minute t < 60 ∧ dt_second t < 60.

#[global] Instance valid_datetime_dec t : Decision (valid_datetime t).
Proof. unfold valid_datetime. apply _. Defined.

(** A world one second later than [world_with_old_file]. *)
Definition later_clock : datetime := mkDatetime 2026 11 4 9 30 6.

(** ** The cleanup of [get_binary_data], followed along a run *)

(** The [try] block from the point where [tmp_path] is bound. *)
Definition try_block_rest (sheet : Worksheet) (tmp_path : Path)
  : M content :=
  _ ← tmp_close;
  _ ← workbook_save AtTmpSave sheet tmp_path;
  binary_data ← read_file tmp_path;
  _ ← unlink AtUnlink tmp_path;
  mret binary_data.

(** What the [os.unlink] of the [except] block does in the run that starts
    in [w]: [None] when the run does not execute it (the [try] block
    succeeds, [tmp_path] is not bound, or the file is already gone), and
    its outcome otherwise. *)
Definition cleanup_unlink_outcome (config : ExcelConfig)
    (results : list ProcessResult) (w : World) : option (outcome unit) :=
  match tmp_create w with
  | (Raise _, _) => None
  | (Ok tmp_path, w1) =>
      match try_block_rest (build_sheet config results) tmp_path w1 with
      | (Ok _, _) => None
      | (Raise _, w2) =>
          if bool_decide (is_Some (files w2 !! tmp_path))
          then Some (unlink AtCleanupUnlink tmp_path w2).1
          else None
      end
  end.

(** The run executes the [os.unlink] of the [except] block and it raises. *)
Definition cleanup_unlink_raises (config : ExcelConfig)
    (results : list ProcessResult) (w : World) : bool :=
  match cleanup_unlink_outcome config results w with
  | Some (Raise _) => true
  | _ => false
  end.

(** A world in which the temporary file cannot be created, and no
    [os.unlink] would succeed. *)
Definition create_fails_world : World :=
  mkWorld ∅ ∅
    (λ s, match s with
          | AtTmpCreate => Some "No space left on device"%string
          | AtUnlink | AtCleanupUnlink => Some "PermissionError"%string
          | _ => None
          end)
    false example_clock example_tmp None 0.

(** * Facts about the worksheet primitives *)

Lemma lookup_update_cell f sh r c rc :
  ws_cells (update_cell f sh r c) !! rc
  = if decide ((r, c) = rc) then Some (f (peek sh r c)) else ws_cells sh !! rc.
Proof. unfold update_cell; simpl. apply lookup_insert. Qed.

Lemma peek_update_cell f sh r c r' c' :
  peek (update_cell f sh r c) r' c'
  = if decide ((r, c) = (r', c')) then f (peek sh r c) else peek sh r' c'.
Proof.
  unfold peek at 1. rewrite lookup_update_cell.
  by destruct (decide ((r, c) = (r', c'))).
Qed.

Lemma peek_update_cell_eq f sh r c :
  peek (update_cell f sh r c) r c = f (peek sh r c).
Proof. rewrite peek_update_cell. by rewrite decide_True. Qed.

Lemma peek_update_cell_ne f sh r c r' c' :
  (r, c) ≠ (r', c') → peek (update_cell f sh r c) r' c' = peek sh r' c'.
Proof. intros. rewrite peek_update_cell. by rewrite decide_False. Qed.

Lemma update_cell_keeps f sh r c rc :
  is_Some (ws_cells sh !! rc) →
  is_Some (ws_cells (update_cell f sh r c) !! rc).
Proof.
  intros. rewrite lookup_update_cell. by destruct (decide ((r, c) = rc)).
Qed.

Lemma update_cell_creates f sh r c :
  is_Some (ws_cells (update_cell f sh r c) !! (r, c)).
Proof. rewrite lookup_update_cell, decide_True; eauto. Qed.

Lemma widths_update_cell f sh r c :
  ws_widths (update_cell f sh r c) = ws_widths sh.
Proof. done. Qed.

Lemma touch_update_cell sh r c : touch sh r c = update_cell id sh r c.
Proof. done. Qed.

Lemma peek_touch sh r c r' c' : peek (touch sh r c) r' c' = peek sh r' c'.
Proof.
  rewrite touch_update_cell, peek_update_cell.
  destruct (decide ((r, c) = (r', c'))) as [[= -> ->]|]; done.
Qed.

(** A cell, once present with a value, is found with that value. *)
Lemma lookup_of_peek sh r c :
  is_Some (ws_cells sh !! (r, c)) → ws_cells sh !! (r, c) = Some (peek sh r c).
Proof. unfold peek. by intros [x ->]. Qed.

Section Folds.
Context {X : Type} (step : Worksheet → X → Worksheet).

Lemma foldl_keeps_cells (l : list X) :
  (∀ x, keeps_cells (λ sh, step sh x)) →
  keeps_cells (λ sh, foldl step sh l).
Proof.
  intros Hstep. induction l as [|x l IH]; intros sh rc H; simpl; [done|].
  apply IH, Hstep, H.
Qed.

Lemma foldl_keeps_values (l : list X) :
  (∀ x, keeps_values (λ sh, step sh x)) →
  keeps_values (λ sh, foldl step sh l).
Proof.
  intros Hstep. induction l as [|x l IH]; intros sh r c; simpl; [done|].
  rewrite IH. apply Hstep.
Qed.

Lemma foldl_keeps_styles (l : list X) :
  (∀ x, keeps_styles (λ sh, step sh x)) →
  keeps_styles (λ sh, foldl step sh l).
Proof.
  intros Hstep. induction l as [|x l IH]; intros sh r c; simpl; [done|].
  rewrite IH. apply Hstep.
Qed.

Lemma foldl_keeps_widths (l : list X) :
  (∀ x, keeps_widths (λ sh, step sh x)) →
  keeps_widths (λ sh, foldl step sh l).
Proof.
  intros Hstep. induction l as [|x l IH]; intros sh; simpl; [done|].
  rewrite IH. apply Hstep.
Qed.
End Folds.

Lemma update_cell_keeps_cells f r c : keeps_cells (λ sh, update_cell f sh r c).
Proof. intros sh rc. apply update_cell_keeps. Qed.

Lemma update_cell_keeps_values f r c :
  (∀ x, cell_value (f x) = cell_value x) →
  keeps_values (λ sh, update_cell f sh r c).
Proof.
  intros Hf sh r' c'. rewrite peek_update_cell.
  destruct (decide ((r, c) = (r', c'))) as [[= -> ->]|]; [apply Hf|done].
Qed.

Lemma update_cell_keeps_styles f r c :
  (∀ x, cell_style (f x) = cell_style x) →
  keeps_styles (λ sh, update_cell f sh r c).
Proof.
  intros Hf sh r' c'. rewrite peek_update_cell.
  destruct (decide ((r, c) = (r', c'))) as [[= -> ->]|]; [apply Hf|done].
Qed.

(** * [_add_data] *)

Lemma add_row_write_cells i result sh :
  add_row i result sh
  = write_cells i sh (zip (seq 1 9) (fields_in_order result)).
Proof. reflexivity. Qed.

Lemma set_value_keeps_styles i c v : keeps_styles (λ sh, set_value sh i c v).
Proof. apply update_cell_keeps_styles. by intros []. Qed.

Lemma write_cells_keeps_cells i l : keeps_cells (λ sh, write_cells i sh l).
Proof.
  apply (foldl_keeps_cells (λ s cv, set_value s i cv.1 cv.2)).
  intros x. apply update_cell_keeps_cells.
Qed.

Lemma write_cells_keeps_styles i l : keeps_styles (λ sh, write_cells i sh l).
Proof.
  apply (foldl_keeps_styles (λ s cv, set_value s i cv.1 cv.2)).
  intros x. apply set_value_keeps_styles.
Qed.

Lemma lookup_write_cells_other i l sh r c :
  (r ≠ i ∨ c ∉ l.*1) →
  ws_cells (write_cells i sh l) !! (r, c) = ws_cells sh !! (r, c).
Proof.
  revert sh. induction l as [|[c0 v0] l IH]; intros sh H; [done|].
  change (write_cells i sh ((c0, v0) :: l))
    with (write_cells i (set_value sh i c0 v0) l).
  rewrite IH.
  - unfold set_value. rewrite lookup_update_cell, decide_False; [done|].
    intros [= -> ->]. destruct H as [H|H]; [done|]. apply H. simpl. left.
  - destruct H as [H|H]; [by left|right]. intros Hin. apply H. simpl.
    by right.
Qed.

Lemma write_cells_other i l sh r c :
  (r ≠ i ∨ c ∉ l.*1) → peek (write_cells i sh l) r c = peek sh r c.
Proof. intros H. unfold peek. by rewrite lookup_write_cells_other. Qed.

Lemma write_cells_written i l sh c v :
  NoDup l.*1 → (c, v) ∈ l →
  is_Some (ws_cells (write_cells i sh l) !! (i, c))
  ∧ cell_value (peek (write_cells i sh l) i c) = v.
Proof.
  revert sh. induction l as [|[c0 v0] l IH]; intros sh Hnd Hin.
  { by apply elem_of_nil in Hin. }
  simpl in Hnd. apply NoDup_cons in Hnd as [Hc0 Hnd].
  apply elem_of_cons in Hin as [[= -> ->]|Hin].
  - split.
    + apply (write_cells_keeps_cells i l (set_value sh i c0 v0)).
      apply update_cell_creates.
    + change (write_cells i sh ((c0, v0) :: l))
        with (write_cells i (set_value sh i c0 v0) l).
      rewrite write_cells_other by (by right).
      unfold set_value. by rewrite peek_update_cell_eq.
  - apply (IH (set_value sh i c0 v0) Hnd Hin).
Qed.

Lemma fields_in_order_zip result k v :
  fields_in_order result !! k = Some v →
  (S k, v) ∈ zip (seq 1 9) (fields_in_order result).
Proof.
  intros H. apply list_elem_of_lookup. exists k.
  do 9 (destruct k as [|k]; [simpl in *; by simplify_eq|]).
  done.
Qed.

Lemma add_row_written i result sh k v :
  fields_in_order result !! k = Some v →
  is_Some (ws_cells (add_row i result sh) !! (i, S k))
  ∧ cell_value (peek (add_row i result sh) i (S k)) = v.
Proof.
  intros H. rewrite add_row_write_cells. apply write_cells_written.
  - change (NoDup (seq 1 9)). apply NoDup_seq.
  - by apply fields_in_order_zip.
Qed.

Lemma add_row_other_row i result sh r c :
  r ≠ i → peek (add_row i result sh) r c = peek sh r c.
Proof. intros. rewrite add_row_write_cells. apply write_cells_other. by left. Qed.

Lemma add_row_other_column i result sh (r c : nat) :
  ¬ (1 ≤ c ≤ 9) → peek (add_row i result sh) r c = peek sh r c.
Proof.
  intros H. rewrite add_row_write_cells. apply write_cells_other. right.
  change (c ∉ seq 1 9). rewrite elem_of_seq. lia.
Qed.

Lemma add_rows_keeps_cells i results : keeps_cells (add_rows i results).
Proof.
  revert i. induction results as [|x l IH]; intros i sh rc H; simpl; [done|].
  apply IH. rewrite add_row_write_cells. by apply write_cells_keeps_cells.
Qed.

Lemma add_rows_keeps_styles i results : keeps_styles (add_rows i results).
Proof.
  revert i. induction results as [|x l IH]; intros i sh r c; simpl; [done|].
  rewrite IH, add_row_write_cells. apply write_cells_keeps_styles.
Qed.

Lemma lookup_add_row_other i result sh (r c : nat) :
  (r ≠ i ∨ ¬ (1 ≤ c ≤ 9)) →
  ws_cells (add_row i result sh) !! (r, c) = ws_cells sh !! (r, c).
Proof.
  intros H. rewrite add_row_write_cells. apply lookup_write_cells_other.
  destruct H as [H|H]; [by left|right].
  change (c ∉ seq 1 9). rewrite elem_of_seq. lia.
Qed.

(** Rows outside [i .. i + len(results) - 1] and columns outside A..I are
    not touched. *)
Lemma lookup_add_rows_outside (i : nat) results sh (r c : nat) :
  (r < i ∨ i + length results ≤ r ∨ ¬ (1 ≤ c ≤ 9)) →
  ws_cells (add_rows i results sh) !! (r, c) = ws_cells sh !! (r, c).
Proof.
  revert i sh. induction results as [|x l IH]; intros i sh H; simpl; [done|].
  simpl in H. rewrite IH by lia. apply lookup_add_row_other. lia.
Qed.

Lemma add_rows_outside (i : nat) results sh (r c : nat) :
  (r < i ∨ i + length results ≤ r ∨ ¬ (1 ≤ c ≤ 9)) →
  peek (add_rows i results sh) r c = peek sh r c.
Proof. intros H. unfold peek. by rewrite lookup_add_rows_outside. Qed.

Lemma add_rows_written i results sh n result k v :
  results !! n = Some result →
  fields_in_order result !! k = Some v →
  is_Some (ws_cells (add_rows i results sh) !! (i + n, S k))
  ∧ cell_value (peek (add_rows i results sh) (i + n) (S k)) = v.
Proof.
  revert i sh n.
  induction results as [|x l IH]; intros i sh n Hn Hk; [done|].
  destruct n as [|n]; simpl in Hn.
  - simplify_eq. replace (i + 0) with i by lia. simpl.
    destruct (add_row_written i result sh k v Hk) as [Hex Hval]. split.
    + by apply add_rows_keeps_cells.
    + rewrite add_rows_outside by lia. done.
  - replace (i + S n) with (S i + n) by lia.
    change (add_rows i (x :: l) sh) with (add_rows (S i) l (add_row i x sh)).
    by apply IH.
Qed.

(** * The width pass and the style pass leave cells and values in place *)

Lemma touch_keeps_cells r c : keeps_cells (λ sh, touch sh r c).
Proof. exact (update_cell_keeps_cells id r c). Qed.
Lemma touch_keeps_values r c : keeps_values (λ sh, touch sh r c).
Proof. intros sh r' c'. by rewrite peek_touch. Qed.
Lemma touch_keeps_styles r c : keeps_styles (λ sh, touch sh r c).
Proof. intros sh r' c'. by rewrite peek_touch. Qed.

Lemma peek_create_column sh mr c r' c' :
  peek (create_column sh mr c) r' c' = peek sh r' c'.
Proof.
  unfold create_column. revert sh.
  induction (seq 1 mr) as [|r l IH]; intros sh; simpl; [done|].
  by rewrite IH, peek_touch.
Qed.

Lemma create_column_keeps_cells mr c :
  keeps_cells (λ sh, create_column sh mr c).
Proof.
  apply (foldl_keeps_cells (λ s r, touch s r c)). intros r.
  apply touch_keeps_cells.
Qed.

Lemma widths_create_column sh mr c :
  ws_widths (create_column sh mr c) = ws_widths sh.
Proof.
  unfold create_column. revert sh.
  induction (seq 1 mr) as [|r l IH]; intros sh; simpl; [done|].
  by rewrite IH.
Qed.

Lemma peek_adjust_column mr sh c r' c' :
  peek (adjust_column mr sh c) r' c' = peek sh r' c'.
Proof. unfold adjust_column, set_width, peek; simpl. apply peek_create_column. Qed.

Lemma adjust_column_keeps_cells mr c :
  keeps_cells (λ sh, adjust_column mr sh c).
Proof. intros sh rc H. by apply (create_column_keeps_cells mr c). Qed.

Lemma peek_adjust_columns mr l sh r c :
  peek (foldl (adjust_column mr) sh l) r c = peek sh r c.
Proof.
  revert sh. induction l as [|x l IH]; intros sh; simpl; [done|].
  by rewrite IH, peek_adjust_column.
Qed.

Lemma peek_adjust_column_widths sh r c :
  peek (_adjust_column_widths sh) r c = peek sh r c.
Proof.
  unfold _adjust_column_widths.
  destruct (map_to_list (ws_cells sh)); [done|apply peek_adjust_columns].
Qed.

Lemma adjust_column_widths_keeps_cells : keeps_cells _adjust_column_widths.
Proof.
  intros sh rc H. unfold _adjust_column_widths.
  destruct (map_to_list (ws_cells sh)); [done|].
  revert H. apply (foldl_keeps_cells (adjust_column (max_row sh))).
  intros c. apply adjust_column_keeps_cells.
Qed.

Lemma style_header_cell_keeps_cells col :
  keeps_cells (λ sh, style_header_cell sh col).
Proof. intros sh rc. apply update_cell_keeps. Qed.
Lemma style_header_cell_keeps_values col :
  keeps_values (λ sh, style_header_cell sh col).
Proof. apply update_cell_keeps_values. by intros []. Qed.

Lemma style_data_cell_keeps_cells row col :
  keeps_cells (λ sh, style_data_cell row sh col).
Proof. intros sh rc. apply update_cell_keeps. Qed.
Lemma style_data_cell_keeps_values row col :
  keeps_values (λ sh, style_data_cell row sh col).
Proof. apply update_cell_keeps_values. intros []. by case_decide. Qed.

Lemma style_data_row_keeps_cells ncols row :
  keeps_cells (λ sh, style_data_row ncols sh row).
Proof.
  apply (foldl_keeps_cells (style_data_cell row)). intros col.
  apply style_data_cell_keeps_cells.
Qed.
Lemma style_data_row_keeps_values ncols row :
  keeps_values (λ sh, style_data_row ncols sh row).
Proof.
  apply (foldl_keeps_values (style_data_cell row)). intros col.
  apply style_data_cell_keeps_values.
Qed.

Lemma apply_styles_keeps_cells config row_count :
  keeps_cells (λ sh, _apply_styles config sh row_count).
Proof.
  intros sh rc H. unfold _apply_styles.
  apply (foldl_keeps_cells (style_data_row _)).
  { intros row. apply style_data_row_keeps_cells. }
  revert H. apply (foldl_keeps_cells style_header_cell).
  intros col. apply style_header_cell_keeps_cells.
Qed.

Lemma apply_styles_keeps_values config row_count :
  keeps_values (λ sh, _apply_styles config sh row_count).
Proof.
  intros sh r c. unfold _apply_styles.
  rewrite (foldl_keeps_values (style_data_row _))
    by (intros row; apply style_data_row_keeps_values).
  apply (foldl_keeps_values style_header_cell).
  intros col. apply style_header_cell_keeps_values.
Qed.

Lemma apply_styles_keeps_widths config row_count :
  keeps_widths (λ sh, _apply_styles config sh row_count).
Proof.
  intros sh. unfold _apply_styles.
  rewrite (foldl_keeps_widths (style_data_row _)).
  - by apply (foldl_keeps_widths style_header_cell).
  - intros row sh'. by apply (foldl_keeps_widths (style_data_cell row)).
Qed.

(** The sheet after the two writing steps, before widths and styles. *)
Lemma build_sheet_unfold config results :
  build_sheet config results
  = _apply_styles config
      (_adjust_column_widths
         (_add_data (_set_headers config (set_title sheet_title new_sheet))
                    results))
      (length results).
Proof. reflexivity. Qed.

Lemma build_sheet_value config results r c :
  cell_value (peek (build_sheet config results) r c)
  = cell_value
      (peek (_add_data (_set_headers config (set_title sheet_title new_sheet))
                       results) r c).
Proof.
  rewrite build_sheet_unfold, apply_styles_keeps_values.
  by rewrite peek_adjust_column_widths.
Qed.

Lemma build_sheet_has_cell config results rc :
  is_Some (ws_cells (_add_data (_set_headers config
                                  (set_title sheet_title new_sheet))
                               results) !! rc) →
  is_Some (ws_cells (build_sheet config results) !! rc).
Proof.
  intros H. rewrite build_sheet_unfold.
  by apply apply_styles_keeps_cells, adjust_column_widths_keeps_cells.
Qed.

Lemma value_at_of_peek sh r c v :
  is_Some (ws_cells sh !! (r, c)) → cell_value (peek sh r c) = v →
  value_at sh r c = Some v.
Proof.
  intros H <-. unfold value_at. by rewrite (lookup_of_peek _ _ _ H).
Qed.

(** * C1: the data rows *)

(** C1.  For every config and every list of records, the exported sheet
    holds, at row [n + 2] (the record's 1-based index plus one, row 1 being
    the header row) and column [k + 1], the [k]-th of the nine fields of the
    [n]-th record, in the order stylist name, coupon name, comment, title,
    sex, length, menu, hashtag, image name.  The config does not enter the
    binding: the statement holds for every config. *)
Theorem C1_data_rows_hold_the_nine_fields
    (config : ExcelConfig) (results : list ProcessResult)
    (n : nat) (result : ProcessResult) (k : nat) (v : value) :
  results !! n = Some result →
  fields_in_order result !! k = Some v →
  value_at (build_sheet config results) (n + 2) (k + 1) = Some v.
Proof.
  intros Hn Hk.
  destruct (add_rows_written 2 results
              (_set_headers config (set_title sheet_title new_sheet))
              n result k v Hn Hk) as [Hex Hval].
  replace (n + 2) with (2 + n) by lia. replace (k + 1) with (S k) by lia.
  apply value_at_of_peek.
  - by apply build_sheet_has_cell.
  - by rewrite build_sheet_value.
Qed.

(** * C2: the header row *)

Lemma value_at_set_value sh r c v r' c' :
  value_at (set_value sh r c v) r' c'
  = if decide ((r, c) = (r', c')) then Some v else value_at sh r' c'.
Proof.
  unfold value_at, set_value. rewrite lookup_update_cell.
  by destruct (decide ((r, c) = (r', c'))).
Qed.

(** The header of coordinate [(r, c)]: the label of column [c] in row 1. *)
Lemma header_of_insert (m : gmap nat pystr) (i : nat) (x : pystr) (r c : nat) :
  (if decide (r = 1) then <[i:=x]> m !! c else None)
  = if decide ((1, i) = (r, c)) then Some x
    else if decide (r = 1) then m !! c else None.
Proof.
  destruct (decide (r = 1)) as [->|Hr].
  - rewrite lookup_insert. destruct (decide (i = c)) as [->|Hne].
    + by rewrite decide_True.
    + rewrite decide_False; [done|]. congruence.
  - rewrite decide_False; [done|]. congruence.
Qed.

(** The cells after [_set_headers], coordinate by coordinate. *)
Lemma set_headers_cells config sheet (r c : nat) :
  ws_cells (_set_headers config sheet) !! (r, c)
  = match (if decide (r = 1) then headers config !! c else None) with
    | Some label => Some (with_value (VStr label) (peek sheet r c))
    | None => ws_cells sheet !! (r, c)
    end.
Proof.
  unfold _set_headers. revert r c.
  apply (map_fold_weak_ind
    (λ sh (m : gmap nat pystr), ∀ r c : nat,
       ws_cells sh !! (r, c)
       = match (if decide (r = 1) then m !! c else None) with
         | Some label => Some (with_value (VStr label) (peek sheet r c))
         | None => ws_cells sheet !! (r, c)
         end)).
  - intros r c. rewrite lookup_empty. by destruct (decide (r = 1)).
  - intros i x m sh Hi IH r c.
    rewrite header_of_insert. unfold set_value. rewrite lookup_update_cell.
    destruct (decide ((1, i) = (r, c))) as [[= <- <-]|Hne]; [|apply IH].
    do 2 f_equal. unfold peek. rewrite IH, decide_True, Hi; done.
Qed.

Lemma set_headers_widths config sheet :
  ws_widths (_set_headers config sheet) = ws_widths sheet.
Proof.
  unfold _set_headers.
  apply (map_fold_weak_ind
           (λ sh (_ : gmap nat pystr), ws_widths sh = ws_widths sheet)); done.
Qed.

Lemma set_headers_keeps_styles config : keeps_styles (_set_headers config).
Proof.
  intros sheet r c. unfold peek at 1. rewrite set_headers_cells.
  destruct (if decide (r = 1) then headers config !! c else None); done.
Qed.

(** C2.  For every config and every sheet the headers are written into:
    each (column, label) pair of the config is the value of the cell of row 1
    at that column; every other coordinate (another row, or a column that
    the config does not name) is left exactly as it was, present or absent;
    and the step changes no style and no column width. *)
Theorem C2_set_headers_writes_labels_in_row_1
    (config : ExcelConfig) (sheet : Worksheet) :
  (∀ (col : nat) (label : pystr),
      headers config !! col = Some label →
      value_at (_set_headers config sheet) 1 col = Some (VStr label))
  ∧ (∀ r c : nat,
      r ≠ 1 ∨ headers config !! c = None →
      ws_cells (_set_headers config sheet) !! (r, c)
      = ws_cells sheet !! (r, c))
  ∧ (∀ r c : nat,
      cell_style (peek (_set_headers config sheet) r c)
      = cell_style (peek sheet r c))
  ∧ ws_widths (_set_headers config sheet) = ws_widths sheet.
Proof.
  split; [|split; [|split]].
  - intros col label H. unfold value_at.
    rewrite set_headers_cells, decide_True, H by done. done.
  - intros r c H. rewrite set_headers_cells.
    destruct (decide (r = 1)) as [->|]; [|done].
    destruct H as [H|H]; [done|]. by rewrite H.
  - intros r c. apply set_headers_keeps_styles.
  - apply set_headers_widths.
Qed.

(** * The width pass *)

Lemma scan_cell_max a x : scan_cell a x = a `max` str_len0 (cell_value x).
Proof.
  unfold scan_cell, str_len0.
  destruct (py_str (cell_value x)); [case_bool_decide|]; lia.
Qed.

Lemma foldl_scan_cell a l :
  foldl scan_cell a l = a `max` max_list ((str_len0 ∘ cell_value) <$> l).
Proof.
  revert a. induction l as [|x l IH]; intros a; [simpl; lia|].
  rewrite fmap_cons. cbn [foldl max_list]. rewrite IH, scan_cell_max.
  change (id ((str_len0 ∘ cell_value) x)) with (str_len0 (cell_value x)).
  lia.
Qed.

Lemma scan_column sh mr c :
  foldl scan_cell 0 (column_tuple sh mr c) = grid_max sh mr c.
Proof.
  unfold column_tuple, grid_max.
  by rewrite foldl_scan_cell, <- list_fmap_compose.
Qed.

Lemma grid_max_ext sh sh' mr c :
  (∀ r, cell_value (peek sh' r c) = cell_value (peek sh r c)) →
  grid_max sh' mr c = grid_max sh mr c.
Proof.
  intros H. unfold grid_max. f_equal. apply list_fmap_ext.
  intros _ r _. by rewrite H.
Qed.

Lemma widths_adjust_column mr sh x c :
  ws_widths (adjust_column mr sh x) !! c
  = if decide (x = c) then Some (adjusted_width (grid_max sh mr x))
    else ws_widths sh !! c.
Proof.
  unfold adjust_column, set_width; simpl.
  rewrite lookup_insert, widths_create_column, scan_column. done.
Qed.

(** The widths after the loop over the columns [l]. *)
Lemma widths_adjust_columns mr l sh c :
  ws_widths (foldl (adjust_column mr) sh l) !! c
  = if decide (c ∈ l) then Some (adjusted_width (grid_max sh mr c))
    else ws_widths sh !! c.
Proof.
  revert sh. induction l as [|x l IH]; intros sh.
  { destruct (decide (c ∈ [])) as [H|]; [by apply elem_of_nil in H|done]. }
  cbn [foldl]. rewrite IH, widths_adjust_column.
  destruct (decide (c ∈ l)) as [Hin|Hnin];
    destruct (decide (c ∈ x :: l)) as [Hin'|Hnin'].
  - do 2 f_equal. apply grid_max_ext. intros r.
    by rewrite peek_adjust_column.
  - exfalso. apply Hnin'. by right.
  - apply elem_of_cons in Hin' as [->|?]; [|done].
    by rewrite decide_True.
  - rewrite decide_False; [done|]. intros ->. apply Hnin'. left.
Qed.

Lemma max_list_bound (l : list nat) (n : nat) :
  (∀ x, x ∈ l → x ≤ n) → max_list l ≤ n.
Proof.
  induction l as [|y l IH]; intros H; simpl; [lia|].
  assert (y ≤ n) by (apply H; left).
  assert (max_list l ≤ n) by (apply IH; intros x Hx; apply H; by right).
  lia.
Qed.

Lemma column_values_elem sh c cell r :
  ws_cells sh !! (r, c) = Some cell →
  str_len0 (cell_value cell) ∈ str_len0 <$> column_values sh c.
Proof.
  intros H. apply list_elem_of_fmap. exists (cell_value cell). split; [done|].
  unfold column_values. apply list_elem_of_fmap. exists ((r, c), cell).
  split; [done|]. apply list_elem_of_filter. split; [done|].
  by apply elem_of_map_to_list.
Qed.

Lemma max_length_ge sh c cell r :
  ws_cells sh !! (r, c) = Some cell →
  str_len0 (cell_value cell) ≤ max_length sh c.
Proof.
  intros H. apply max_list_elem_of_le. by eapply column_values_elem.
Qed.

Lemma max_length_le sh c n :
  (∀ r cell, ws_cells sh !! (r, c) = Some cell →
             str_len0 (cell_value cell) ≤ n) →
  max_length sh c ≤ n.
Proof.
  intros H. apply max_list_bound. intros x Hx.
  apply list_elem_of_fmap in Hx as (v & -> & Hv).
  unfold column_values in Hv.
  apply list_elem_of_fmap in Hv as ([[r c'] cell] & -> & Hkv).
  apply list_elem_of_filter in Hkv as [Hc Hkv]. simpl in Hc. subst c'.
  apply elem_of_map_to_list in Hkv. by eapply H.
Qed.

Lemma str_len0_new_cell : str_len0 (cell_value new_cell) = 4.
Proof. reflexivity. Qed.

Lemma peek_len_bound sh r c :
  str_len0 (cell_value (peek sh r c)) ≤ max_length sh c `max` 4.
Proof.
  unfold peek. destruct (ws_cells sh !! (r, c)) as [cell|] eqn:E.
  - pose proof (max_length_ge _ _ _ _ E). simpl. lia.
  - change (default new_cell None) with new_cell.
    rewrite str_len0_new_cell. lia.
Qed.

(** Cells that are created empty, and styles, move the maximum of a column
    by at most the length of ["None"]. *)
Lemma max_length_sandwich sh sh' c :
  (∀ rc, is_Some (ws_cells sh !! rc) → is_Some (ws_cells sh' !! rc)) →
  (∀ r, cell_value (peek sh' r c) = cell_value (peek sh r c)) →
  max_length sh c ≤ max_length sh' c
  ∧ max_length sh' c ≤ max_length sh c `max` 4.
Proof.
  intros Hcells Hvals. split.
  - apply max_length_le. intros r cell E.
    assert (is_Some (ws_cells sh' !! (r, c))) as [cell' E']
      by (apply Hcells; eauto).
    pose proof (max_length_ge _ _ _ _ E') as Hge.
    specialize (Hvals r). unfold peek in Hvals. rewrite E, E' in Hvals.
    simpl in Hvals. by rewrite <- Hvals.
  - apply max_length_le. intros r cell' E'.
    specialize (Hvals r). unfold peek at 1 in Hvals. rewrite E' in Hvals.
    simpl in Hvals. rewrite Hvals. apply peek_len_bound.
Qed.

Lemma max_row_ge sh r c :
  is_Some (ws_cells sh !! (r, c)) → r ≤ max_row sh.
Proof.
  intros [cell E]. apply elem_of_map_to_list in E.
  assert (r ∈ rows_of sh) as Hr.
  { unfold rows_of. apply list_elem_of_fmap. by exists ((r, c), cell). }
  unfold max_row. destruct (rows_of sh) as [|r0 l] eqn:Erows.
  - by apply elem_of_nil in Hr.
  - by apply max_list_elem_of_le.
Qed.

Lemma max_column_ge sh r c :
  is_Some (ws_cells sh !! (r, c)) → c ≤ max_column sh.
Proof.
  intros [cell E]. apply elem_of_map_to_list in E.
  assert (c ∈ cols_of sh) as Hc.
  { unfold cols_of. apply list_elem_of_fmap. by exists ((r, c), cell). }
  unfold max_column. destruct (cols_of sh) as [|c0 l] eqn:Ecols.
  - by apply elem_of_nil in Hc.
  - by apply max_list_elem_of_le.
Qed.

Lemma grid_max_sandwich sh c :
  (∀ r, is_Some (ws_cells sh !! (r, c)) → 1 ≤ r) →
  max_length sh c ≤ grid_max sh (max_row sh) c
  ∧ grid_max sh (max_row sh) c ≤ max_length sh c `max` 4.
Proof.
  intros Hpos. split.
  - apply max_length_le. intros r cell E. apply max_list_elem_of_le.
    apply list_elem_of_fmap. exists r. split.
    + unfold peek. by rewrite E.
    + apply elem_of_seq.
      assert (is_Some (ws_cells sh !! (r, c))) as Hsome by eauto.
      pose proof (max_row_ge sh r c Hsome). pose proof (Hpos r Hsome). lia.
  - apply max_list_bound. intros x Hx.
    apply list_elem_of_fmap in Hx as (r & -> & _). apply peek_len_bound.
Qed.

(** * C3 and C4: the assigned widths *)

Lemma raw_width_eq m :
  (inject_Z (Z.of_nat (m + 2)) * 1.1 == (inject_Z (Z.of_nat m) + 2) * 1.1)%Q.
Proof.
  rewrite Nat2Z.inj_add, inject_Z_plus. reflexivity.
Qed.

Lemma adjusted_width_bounds m : (10 <= adjusted_width m <= 50)%Q.
Proof.
  unfold adjusted_width, py_max, py_min.
  set (x := (inject_Z (Z.of_nat (m + 2)) * 1.1)%Q).
  destruct (Qle_bool 50 x) eqn:E1.
  - vm_compute. split; discriminate.
  - destruct (Qle_bool x 10) eqn:E2.
    + split; [apply Qle_refl|discriminate].
    + assert (¬ (50 <= x)%Q) by (rewrite <- Qle_bool_iff; congruence).
      assert (¬ (x <= 10)%Q) by (rewrite <- Qle_bool_iff; congruence).
      lra.
Qed.

(** Between the bounds the width is the product itself. *)
Lemma adjusted_width_inside m :
  inside_bounds m →
  adjusted_width m = (inject_Z (Z.of_nat (m + 2)) * 1.1)%Q.
Proof.
  intros [Hlo Hhi]. pose proof (raw_width_eq m) as Hraw.
  unfold adjusted_width, py_max, py_min.
  set (x := (inject_Z (Z.of_nat (m + 2)) * 1.1)%Q) in *.
  destruct (Qle_bool 50 x) eqn:E1.
  { apply Qle_bool_iff in E1. lra. }
  destruct (Qle_bool x 10) eqn:E2.
  { apply Qle_bool_iff in E2. lra. }
  done.
Qed.

Lemma adjusted_width_formula m : (adjusted_width m == width_formula m)%Q.
Proof.
  unfold width_formula, clamp. pose proof (raw_width_eq m) as Hraw.
  unfold adjusted_width, py_max, py_min.
  set (x := (inject_Z (Z.of_nat (m + 2)) * 1.1)%Q) in *.
  set (y := ((inject_Z (Z.of_nat m) + 2) * 1.1)%Q) in *.
  destruct (Qlt_le_dec y 10) as [Hlo|Hlo].
  - destruct (Qle_bool 50 x) eqn:E1.
    { apply Qle_bool_iff in E1. lra. }
    destruct (Qle_bool x 10) eqn:E2; [reflexivity|].
    assert (¬ (x <= 10)%Q) by (rewrite <- Qle_bool_iff; congruence). lra.
  - destruct (Qlt_le_dec 50 y) as [Hhi|Hhi].
    + destruct (Qle_bool 50 x) eqn:E1; [reflexivity|].
      assert (¬ (50 <= x)%Q) by (rewrite <- Qle_bool_iff; congruence). lra.
    + destruct (Qle_bool 50 x) eqn:E1.
      { apply Qle_bool_iff in E1.
        change (Qle_bool 50 10) with false. cbv iota. lra. }
      destruct (Qle_bool x 10) eqn:E2; [|exact Hraw].
      apply Qle_bool_iff in E2. lra.
Qed.

Lemma adjusted_width_small m : m ≤ 7 → adjusted_width m = 10%Q.
Proof.
  intros H. do 8 (destruct m as [|m]; [reflexivity|]). lia.
Qed.

(** Empty cells, which read as ["None"], never move the width. *)
Lemma adjusted_width_sandwich m m' :
  m ≤ m' → m' ≤ m `max` 4 → adjusted_width m' = adjusted_width m.
Proof.
  intros H1 H2. destruct (decide (4 ≤ m)).
  - by replace m' with m by lia.
  - rewrite !adjusted_width_small by lia. done.
Qed.

Lemma adjusted_width_mono m1 m2 :
  inside_bounds m1 → inside_bounds m2 → m1 < m2 →
  (adjusted_width m1 < adjusted_width m2)%Q.
Proof.
  intros H1 H2 Hlt. rewrite !adjusted_width_inside by done.
  apply Qmult_lt_compat_r; [reflexivity|]. rewrite <- Zlt_Qlt. lia.
Qed.

(** The rounding of the float product changes no clamping decision and
    moves no width by more than [2^-40], for every length up to 4095 (a
    cell of a workbook holds at most 32767 characters, and from length 44
    on the width is the upper bound). *)
Lemma float_width_agrees m : m < 4096 → float_agrees m = true.
Proof.
  intros Hm.
  assert (forallb float_agrees (seq 0 4096) = true) as Hall
    by (vm_compute; reflexivity).
  rewrite forallb_forall in Hall. apply Hall, in_seq. lia.
Qed.

Lemma adjust_column_widths_nonempty sh r c :
  is_Some (ws_cells sh !! (r, c)) →
  _adjust_column_widths sh
  = foldl (adjust_column (max_row sh)) sh (seq 1 (max_column sh)).
Proof.
  intros [cell E]. unfold _adjust_column_widths.
  destruct (map_to_list (ws_cells sh)) as [|kv l] eqn:El; [|done].
  apply map_to_list_empty_iff in El. rewrite El in E.
  by rewrite lookup_empty in E.
Qed.

(** A width found after the pass on a sheet that had none was assigned by
    the pass, from the maximum of the column over the grid. *)
Lemma widths_after_pass sh c w :
  ws_widths sh = ∅ →
  ws_widths (_adjust_column_widths sh) !! c = Some w →
  w = adjusted_width (grid_max sh (max_row sh) c).
Proof.
  intros Hempty. unfold _adjust_column_widths.
  destruct (map_to_list (ws_cells sh)) as [|kv l] eqn:El.
  { rewrite Hempty, lookup_empty. done. }
  rewrite widths_adjust_columns.
  destruct (decide (c ∈ seq 1 (max_column sh))).
  - congruence.
  - rewrite Hempty, lookup_empty. done.
Qed.

Lemma coords_positive_lookup sh (r c : nat) :
  coords_positive sh → is_Some (ws_cells sh !! (r, c)) → 1 ≤ r ∧ 1 ≤ c.
Proof. intros Hpos [cell E]. apply (Hpos (r, c) cell E). Qed.

(** C3.  On a sheet whose coordinates start at 1, for every column [c] with
    at least one cell, the width pass sets the width of [c] to
    [max(10, min(50, (M + 2) * 1.1))], which is [clamp((M + 2) * 1.1, 10, 50)],
    where [M] is the largest [len(str(value))] over the cells of the column
    (the header cell included), a value whose [str] raises counting as 0.
    The cells that the iteration itself creates empty do not change the
    width: the maximum over the column after the pass gives the same
    width. *)
Theorem C3_width_is_clamped_from_longest_cell
    (sheet : Worksheet) (c : nat) :
  coords_positive sheet →
  (∃ r, is_Some (ws_cells sheet !! (r, c))) →
  ws_widths (_adjust_column_widths sheet) !! c
  = Some (adjusted_width (max_length sheet c))
  ∧ (adjusted_width (max_length sheet c)
     == width_formula (max_length sheet c))%Q
  ∧ adjusted_width (max_length (_adjust_column_widths sheet) c)
    = adjusted_width (max_length sheet c)
  ∧ (∀ v, py_str v = None → str_len0 v = 0).
Proof.
  intros Hpos [r Hcell]. split; [|split; [|split]].
  - rewrite (adjust_column_widths_nonempty sheet r c Hcell).
    rewrite widths_adjust_columns, decide_True.
    + f_equal. apply adjusted_width_sandwich; apply grid_max_sandwich;
        intros r' H'; by apply (coords_positive_lookup sheet r' c).
    + apply elem_of_seq. pose proof (max_column_ge sheet r c Hcell).
      destruct (coords_positive_lookup sheet r c Hpos Hcell). lia.
  - apply adjusted_width_formula.
  - apply adjusted_width_sandwich; apply max_length_sandwich.
    + apply adjust_column_widths_keeps_cells.
    + intros r'. by rewrite peek_adjust_column_widths.
    + apply adjust_column_widths_keeps_cells.
    + intros r'. by rewrite peek_adjust_column_widths.
  - intros v Hv. unfold str_len0. by rewrite Hv.
Qed.

Lemma add_rows_keeps_widths i results : keeps_widths (add_rows i results).
Proof.
  revert i. induction results as [|x l IH]; intros i sh; simpl; [done|].
  by rewrite IH.
Qed.

Lemma written_sheet_widths config results :
  ws_widths (written_sheet config results) = ∅.
Proof.
  unfold written_sheet, _add_data.
  by rewrite add_rows_keeps_widths, set_headers_widths.
Qed.

Lemma written_sheet_rows config results (r c : nat) :
  is_Some (ws_cells (written_sheet config results) !! (r, c)) → 1 ≤ r.
Proof.
  intros H. destruct r as [|r]; [|lia]. exfalso. revert H.
  unfold written_sheet, _add_data.
  rewrite lookup_add_rows_outside by lia.
  rewrite set_headers_cells, decide_False by lia.
  intros [x Hx]. done.
Qed.

Lemma build_sheet_widths config results :
  ws_widths (build_sheet config results)
  = ws_widths (_adjust_column_widths (written_sheet config results)).
Proof. apply apply_styles_keeps_widths. Qed.

(** The width of a column of the exported sheet, from the longest value
    that the exported sheet has in that column. *)
Lemma build_sheet_width config results c w :
  ws_widths (build_sheet config results) !! c = Some w →
  w = adjusted_width (max_length (build_sheet config results) c).
Proof.
  rewrite build_sheet_widths. intros Hw.
  apply widths_after_pass in Hw; [|apply written_sheet_widths]. subst w.
  transitivity (adjusted_width (max_length (written_sheet config results) c)).
  - apply adjusted_width_sandwich; apply grid_max_sandwich;
      intros r; apply written_sheet_rows.
  - symmetry. apply adjusted_width_sandwich; apply max_length_sandwich.
    + intros rc. apply build_sheet_has_cell.
    + intros r. apply build_sheet_value.
    + intros rc. apply build_sheet_has_cell.
    + intros r. apply build_sheet_value.
Qed.

(** C4.  In every exported sheet, every column width lies in [10, 50]; and
    for two columns whose longest stringified values both give a width
    strictly between the bounds before clamping, the column with the
    strictly longer value has the strictly larger width. *)
Theorem C4_widths_bounded_and_increasing
    (config : ExcelConfig) (results : list ProcessResult) :
  (∀ (c : nat) (w : Q),
      ws_widths (build_sheet config results) !! c = Some w →
      (10 <= w <= 50)%Q)
  ∧ (∀ (c1 c2 : nat) (w1 w2 : Q),
      ws_widths (build_sheet config results) !! c1 = Some w1 →
      ws_widths (build_sheet config results) !! c2 = Some w2 →
      inside_bounds (max_length (build_sheet config results) c1) →
      inside_bounds (max_length (build_sheet config results) c2) →
      max_length (build_sheet config results) c1
        < max_length (build_sheet config results) c2 →
      (w1 < w2)%Q).
Proof.
  split.
  - intros c w Hw. apply build_sheet_width in Hw. subst w.
    apply adjusted_width_bounds.
  - intros c1 c2 w1 w2 H1 H2 Hin1 Hin2 Hlt.
    apply build_sheet_width in H1, H2. subst w1 w2.
    by apply adjusted_width_mono.
Qed.

(** * The style pass *)

Lemma update_cells_cons F sh rc coords :
  update_cells F sh (rc :: coords)
  = update_cells F (update_cell F sh rc.1 rc.2) coords.
Proof. reflexivity. Qed.

Lemma update_cells_app F sh l1 l2 :
  update_cells F sh (l1 ++ l2) = update_cells F (update_cells F sh l1) l2.
Proof. unfold update_cells. apply foldl_app. Qed.

Lemma peek_update_cells F coords sh (r c : nat) :
  (∀ x, F (F x) = F x) →
  peek (update_cells F sh coords) r c
  = if decide ((r, c) ∈ coords) then F (peek sh r c) else peek sh r c.
Proof.
  intros Hidem. revert sh.
  induction coords as [|[r0 c0] l IH]; intros sh.
  { destruct (decide ((r, c) ∈ [])) as [H|]; [by apply elem_of_nil in H|done]. }
  rewrite update_cells_cons, IH, peek_update_cell. simpl.
  destruct (decide ((r, c) ∈ l)) as [Hin|Hnin];
    destruct (decide ((r, c) ∈ (r0, c0) :: l)) as [Hin'|Hnin'];
    destruct (decide ((r0, c0) = (r, c))) as [Heq|Hne];
    try (injection Heq as -> ->);
    first [ done | by rewrite Hidem | exfalso; set_solver ].
Qed.

Lemma lookup_update_cells F coords sh rc :
  is_Some (ws_cells (update_cells F sh coords) !! rc)
  ↔ rc ∈ coords ∨ is_Some (ws_cells sh !! rc).
Proof.
  revert sh. induction coords as [|[r0 c0] l IH]; intros sh.
  { split; [by right|]. intros [H|H]; [by apply elem_of_nil in H|done]. }
  rewrite update_cells_cons, IH, lookup_update_cell, elem_of_cons. simpl.
  destruct (decide ((r0, c0) = rc)) as [<-|Hne].
  - split; [by left; left|eauto].
  - split; [tauto|]. intros [[?|?]|?]; [congruence|by left|by right].
Qed.

Lemma style_header_cells sh l :
  foldl style_header_cell sh l
  = update_cells header_style_of sh ((λ col, (1, col)) <$> l).
Proof.
  revert sh. induction l as [|col l IH]; intros sh; [done|].
  simpl. rewrite IH. done.
Qed.

(** The special case for column H assigns what the general case assigned. *)
Lemma style_data_cell_general row sh col :
  style_data_cell row sh col = update_cell data_style_of sh row col.
Proof.
  unfold style_data_cell, update_cell. do 2 f_equal.
  destruct (decide (col = 8)); by destruct (peek sh row col).
Qed.

Lemma style_data_row_cells ncols sh row :
  style_data_row ncols sh row
  = update_cells data_style_of sh (row_coords ncols row).
Proof.
  unfold style_data_row, row_coords. revert sh.
  induction (seq 1 ncols) as [|col l IH]; intros sh; [done|].
  simpl. rewrite IH, style_data_cell_general. done.
Qed.

Lemma style_data_rows_cells ncols sh rows :
  foldl (style_data_row ncols) sh rows
  = update_cells data_style_of sh (rows ≫= row_coords ncols).
Proof.
  revert sh. induction rows as [|row l IH]; intros sh; [done|].
  simpl. rewrite IH, style_data_row_cells, update_cells_app. done.
Qed.

(** [_apply_styles] as two sweeps over coordinates. *)
Lemma apply_styles_cells config sh row_count :
  _apply_styles config sh row_count
  = update_cells data_style_of
      (update_cells header_style_of sh
         (header_coords (size (headers config))))
      (data_coords (size (headers config)) row_count).
Proof.
  unfold _apply_styles. by rewrite style_data_rows_cells, style_header_cells.
Qed.

Lemma elem_of_header_coords ncols (r c : nat) :
  (r, c) ∈ header_coords ncols ↔ r = 1 ∧ 1 ≤ c ≤ ncols.
Proof.
  unfold header_coords. rewrite list_elem_of_fmap. split.
  - intros (col & [= -> ->] & Hcol). apply elem_of_seq in Hcol. lia.
  - intros [-> H]. exists c. split; [done|]. apply elem_of_seq. lia.
Qed.

Lemma elem_of_data_coords ncols row_count (r c : nat) :
  (r, c) ∈ data_coords ncols row_count
  ↔ 2 ≤ r ≤ 1 + row_count ∧ 1 ≤ c ≤ ncols.
Proof.
  unfold data_coords, row_coords. rewrite list_elem_of_bind. split.
  - intros (row & Hin & Hrow). apply list_elem_of_fmap in Hin
      as (col & [= -> ->] & Hcol).
    apply elem_of_seq in Hrow, Hcol. lia.
  - intros [Hr Hc]. exists r. split; [|apply elem_of_seq; lia].
    apply list_elem_of_fmap. exists c. split; [done|]. apply elem_of_seq. lia.
Qed.

Lemma header_style_idem x : header_style_of (header_style_of x) = header_style_of x.
Proof. done. Qed.
Lemma data_style_idem x : data_style_of (data_style_of x) = data_style_of x.
Proof. done. Qed.

(** The cell read at a coordinate after [_apply_styles]. *)
Lemma peek_apply_styles config sh row_count (r c : nat) :
  peek (_apply_styles config sh row_count) r c
  = if decide (r = 1 ∧ 1 ≤ c ≤ size (headers config))
    then header_style_of (peek sh r c)
    else if decide (2 ≤ r ≤ 1 + row_count ∧ 1 ≤ c ≤ size (headers config))
         then data_style_of (peek sh r c)
         else peek sh r c.
Proof.
  rewrite apply_styles_cells.
  rewrite !peek_update_cells by (apply data_style_idem || apply header_style_idem).
  destruct (decide ((r, c) ∈ data_coords (size (headers config)) row_count))
    as [Hd|Hd]; rewrite elem_of_data_coords in Hd;
  destruct (decide ((r, c) ∈ header_coords (size (headers config))))
    as [Hh|Hh]; rewrite elem_of_header_coords in Hh.
  - lia.
  - rewrite decide_False by lia. by rewrite decide_True.
  - by rewrite decide_True.
  - rewrite decide_False by done. by rewrite decide_False.
Qed.

Lemma lookup_apply_styles config sh row_count (r c : nat) :
  is_Some (ws_cells (_apply_styles config sh row_count) !! (r, c))
  ↔ (2 ≤ r ≤ 1 + row_count ∧ 1 ≤ c ≤ size (headers config))
    ∨ (r = 1 ∧ 1 ≤ c ≤ size (headers config))
    ∨ is_Some (ws_cells sh !! (r, c)).
Proof.
  rewrite apply_styles_cells, !lookup_update_cells.
  by rewrite elem_of_data_coords, elem_of_header_coords.
Qed.

(** * C8: the styles of the exported sheet *)

(** No step before [_apply_styles] assigns a style. *)
Lemma written_sheet_styles config results r c :
  cell_style (peek (written_sheet config results) r c)
  = (None, None, None, None).
Proof.
  unfold written_sheet, _add_data.
  by rewrite add_rows_keeps_styles, set_headers_keeps_styles.
Qed.

Lemma build_sheet_peek config results (r c : nat) :
  peek (build_sheet config results) r c
  = let before := peek (written_sheet config results) r c in
    if decide (r = 1 ∧ 1 ≤ c ≤ size (headers config))
    then header_style_of before
    else if decide (2 ≤ r ≤ 1 + length results
                    ∧ 1 ≤ c ≤ size (headers config))
         then data_style_of before
         else before.
Proof.
  rewrite build_sheet_unfold, peek_apply_styles.
  by rewrite peek_adjust_column_widths.
Qed.

Lemma build_sheet_styled_cell_exists config results (r c : nat) :
  1 ≤ r ≤ 1 + length results → 1 ≤ c ≤ size (headers config) →
  ws_cells (build_sheet config results) !! (r, c)
  = Some (peek (build_sheet config results) r c).
Proof.
  intros Hr Hc. apply lookup_of_peek.
  rewrite build_sheet_unfold. apply lookup_apply_styles.
  destruct (decide (r = 1)); [right; left|left]; lia.
Qed.

(** C8.  In the exported sheet, with [columnCount] the number of entries of
    the config and [recordCount] the number of records: every cell of row 1
    in columns [1..columnCount] has the bold white 12pt font, the solid fill
    4472C4, center/center alignment with wrapping and a thin border on the
    four sides; every cell of rows [2..1+recordCount] in those columns has
    vertical center alignment with wrapping and the thin border, and no
    other style, column 8 included; and the step for column 8, with its
    repeated assignment of the alignment, is the general step (alignment,
    then border). *)
Theorem C8_header_and_data_styles
    (config : ExcelConfig) (results : list ProcessResult) :
  (∀ col : nat, 1 ≤ col ≤ size (headers config) →
     ∃ cell, ws_cells (build_sheet config results) !! (1, col) = Some cell
       ∧ cell_font cell = Some (mkFont true 12 "FFFFFF")
       ∧ cell_fill cell = Some (mkPatternFill "4472C4" "4472C4" "solid")
       ∧ cell_alignment cell
         = Some (mkAlignment (Some "center"%string) (Some "center"%string)
                             (Some true))
       ∧ cell_border cell
         = Some (mkBorder (mkSide (Some "thin"%string))
                          (mkSide (Some "thin"%string))
                          (mkSide (Some "thin"%string))
                          (mkSide (Some "thin"%string))))
  ∧ (∀ row col : nat,
       2 ≤ row ≤ 1 + length results → 1 ≤ col ≤ size (headers config) →
       ∃ cell, ws_cells (build_sheet config results) !! (row, col) = Some cell
         ∧ cell_style cell
           = (None, None,
              Some (mkAlignment None (Some "center"%string) (Some true)),
              Some (mkBorder (mkSide (Some "thin"%string))
                             (mkSide (Some "thin"%string))
                             (mkSide (Some "thin"%string))
                             (mkSide (Some "thin"%string)))))
  ∧ (∀ (row : nat) (sh : Worksheet),
       style_data_cell row sh 8
       = update_cell
           (λ cell, with_border thin_border
                      (with_alignment data_alignment cell)) sh row 8).
Proof.
  split; [|split].
  - intros col Hcol. eexists. split.
    + apply build_sheet_styled_cell_exists; [lia|done].
    + rewrite build_sheet_peek. cbv zeta. rewrite decide_True by lia. done.
  - intros row col Hrow Hcol. eexists. split.
    + apply build_sheet_styled_cell_exists; [lia|done].
    + rewrite build_sheet_peek. cbv zeta.
      rewrite decide_False by lia. rewrite decide_True by lia.
      pose proof (written_sheet_styles config results row col) as H.
      destruct (peek (written_sheet config results) row col).
      unfold cell_style in *. simpl in *. by simplify_eq.
  - intros row sh. apply style_data_cell_general.
Qed.

(** * Paths *)

Lemma str_app_cons a (s1 s2 : string) :
  (String a s1 ++ s2)%string = String a (s1 ++ s2)%string.
Proof. reflexivity. Qed.

Lemma str_app_nil_r (s : string) : (s ++ "")%string = s.
Proof.
  induction s as [|a s IH]; [done|]. by rewrite str_app_cons, IH.
Qed.

Lemma str_take_drop n s : (str_take n s ++ str_drop n s)%string = s.
Proof.
  revert n. induction s as [|a s IH]; intros [|n]; simpl; try done.
  by rewrite str_app_cons, IH.
Qed.

Lemma str_length_app (s1 s2 : string) :
  String.length (s1 ++ s2) = String.length s1 + String.length s2.
Proof.
  induction s1 as [|a s1 IH]; [done|].
  rewrite str_app_cons. simpl. by rewrite IH.
Qed.

(** [stem + suffix == name], as in pathlib. *)
Lemma stem_suffix p : (stem p ++ suffix p)%string = path_name p.
Proof.
  unfold stem, suffix, split_name.
  destruct (rfind_dot (path_name p)) as [i|]; simpl.
  - case_bool_decide; simpl.
    + apply str_take_drop.
    + apply str_app_nil_r.
  - apply str_app_nil_r.
Qed.

(** The backup never has the name of the file it copies. *)
Lemma backup_path_ne p timestamp :
  with_name p (backup_name p timestamp) ≠ p.
Proof.
  intros H. apply (f_equal path_name) in H. simpl in H.
  apply (f_equal String.length) in H. unfold backup_name in H.
  pose proof (f_equal String.length (stem_suffix p)) as Hname.
  rewrite str_length_app in Hname. rewrite !str_length_app in H.
  change (String.length "_") with 1 in H.
  change (String.length "_backup") with 7 in H. lia.
Qed.

(** * [get_binary_data] and the temporary file *)

Ltac unfold_io :=
  unfold get_binary_data, export, with_error_handling, get_binary_data_body,
    export_body, cleanup_and_raise, _create_backup, copy2, now, mkdir_parents,
    try_except, tmp_create, tmp_close, workbook_save, read_file, unlink,
    path_exists, raise, io, mbind, M_bind, mret, M_ret, with_files, with_dirs;
  simpl.

Ltac finish_io :=
  intros; simplify_eq; simpl in *;
  rewrite ?delete_insert_eq, ?insert_insert_eq, ?delete_id by done;
  repeat split; try done.

(** A successful call returns the workbook as saved and leaves the file
    system as it found it. *)
Lemma get_binary_data_ok config results w bytes w' :
  files w !! next_tmp w = None →
  get_binary_data config results w = (Ok bytes, w') →
  bytes = Xlsx (clock w) (build_sheet config results)
  ∧ files w' = files w ∧ dirs w' = dirs w.
Proof.
  intros Hfresh. unfold_io.
  repeat (case_match; simplify_map_eq; try done).
  finish_io.
Qed.

(** When the [os.unlink] of the [except] block does not raise, a failing
    call leaves the file system as it found it. *)
Lemma get_binary_data_raise_cleans config results w e w' :
  files w !! next_tmp w = None →
  faults w AtCleanupUnlink = None →
  get_binary_data config results w = (Raise e, w') →
  files w' = files w ∧ dirs w' = dirs w.
Proof.
  intros Hfresh Hclean. unfold_io.
  repeat (case_match; simplify_map_eq; try done); finish_io.
Qed.

Lemma get_binary_data_returns config results w bytes w' :
  get_binary_data config results w = (Ok bytes, w') →
  bytes = Xlsx (clock w) (build_sheet config results).
Proof.
  unfold_io. repeat (case_match; simplify_map_eq; try done). finish_io.
Qed.

(** The function under the decorator, with its [try] block named. *)
Lemma get_binary_data_body_unfold config results w :
  get_binary_data_body config results w
  = match tmp_create w with
    | (Raise e, w1) => cleanup_and_raise None e w1
    | (Ok tmp_path, w1) =>
        match try_block_rest (build_sheet config results) tmp_path w1 with
        | (Raise e, w2) => cleanup_and_raise (Some tmp_path) e w2
        | done => done
        end
    end.
Proof. reflexivity. Qed.

(** In terms of the environment: the [os.unlink] of the [except] block is
    executed and raises exactly when the temporary file was created, a
    later call of the [try] block raises, and that [os.unlink] raises. *)
Lemma cleanup_unlink_raises_iff config results w :
  cleanup_unlink_raises config results w = true
  ↔ faults w AtTmpCreate = None
    ∧ (is_Some (faults w AtTmpClose) ∨ is_Some (faults w AtTmpSave)
       ∨ is_Some (faults w AtRead) ∨ is_Some (faults w AtUnlink))
    ∧ is_Some (faults w AtCleanupUnlink).
Proof.
  unfold cleanup_unlink_raises, cleanup_unlink_outcome, try_block_rest.
  unfold_io. split.
  - repeat (case_match; simplify_map_eq; try done); finish_io; eauto 10.
  - intros (H1 & H2 & [m H3]).
    repeat (case_match; simplify_map_eq; try done); finish_io;
      destruct H2 as [[? ?]|[[? ?]|[[? ?]|[? ?]]]]; simplify_eq.
Qed.

Ltac run_cleanup :=
  unfold cleanup_unlink_raises, cleanup_unlink_outcome, try_block_rest;
  unfold_io;
  repeat (case_match; simplify_map_eq; try done); finish_io.

(** A run in which the [os.unlink] of the [except] block does not raise
    leaves the file system as it found it. *)
Lemma get_binary_data_cleans config results w :
  files w !! next_tmp w = None →
  cleanup_unlink_raises config results w = false →
  files (get_binary_data config results w).2 = files w
  ∧ dirs (get_binary_data config results w).2 = dirs w.
Proof.
  intros Hfresh.
  destruct (get_binary_data config results w) as [o w'] eqn:E. revert E.
  run_cleanup.
Qed.

(** A run in which it raises ends with an error and with the temporary file
    in place. *)
Lemma get_binary_data_leaks config results w :
  cleanup_unlink_raises config results w = true →
  (∃ e, (get_binary_data config results w).1 = Raise e)
  ∧ is_Some (files (get_binary_data config results w).2 !! next_tmp w).
Proof.
  destruct (get_binary_data config results w) as [o w'] eqn:E. revert E.
  run_cleanup; eauto; by rewrite ?lookup_insert_eq.
Qed.

(** C5, as amended.  For every call of [get_binary_data] whose temporary
    name is fresh.  If the run does not end in an [os.unlink] of the
    [except] block that raises (the call returns bytes; or the temporary
    file could not be created, so that there is nothing to remove; or the
    [try] block fails and that [os.unlink] succeeds), then the files and
    directories after the call are those before it: the temporary file is
    gone, whatever failed.  If the run does execute that [os.unlink] and it
    raises, then the call raises and the temporary file is still in
    place. *)
Theorem C5_temp_file_left_exactly_when_cleanup_unlink_raises
    (config : ExcelConfig) (results : list ProcessResult) (w : World) :
  files w !! next_tmp w = None →
  (cleanup_unlink_raises config results w = false →
     files (get_binary_data config results w).2 = files w
     ∧ dirs (get_binary_data config results w).2 = dirs w)
  ∧ (cleanup_unlink_raises config results w = true →
     (∃ e, (get_binary_data config results w).1 = Raise e)
     ∧ is_Some (files (get_binary_data config results w).2 !! next_tmp w)
     ∧ files (get_binary_data config results w).2 ≠ files w).
Proof.
  intros Hfresh. split.
  - by apply get_binary_data_cleans.
  - intros Hraises.
    destruct (get_binary_data_leaks config results w Hraises) as [He Hleft].
    split; [done|]. split; [done|].
    intros Heq. rewrite Heq, Hfresh in Hleft. by destruct Hleft.
Qed.

(** C5 as stated fails: with every [os.unlink] raising, the call raises and
    the temporary file is still there. *)
Lemma C5_counterexample_unlink_raises :
  ¬ (∀ (config : ExcelConfig) (results : list ProcessResult) (w : World),
       files w !! next_tmp w = None →
       files (get_binary_data config results w).2 = files w).
Proof.
  intros H.
  specialize (H example_config [] locked_world eq_refl).
  apply (f_equal (λ m, is_Some (m !! example_tmp))) in H.
  assert (is_Some (files (get_binary_data example_config [] locked_world).2
                     !! example_tmp)) as Hleft.
  { vm_compute. eauto. }
  rewrite H in Hleft. destruct Hleft as [c Hc]. done.
Qed.

(** * [export] *)

Lemma backup_path_eq p t :
  backup_path p t = with_name p (backup_name p (strftime t)).
Proof. reflexivity. Qed.

Lemma backup_path_ne_target p t : p ≠ backup_path p t.
Proof. intros H. by apply (backup_path_ne p (strftime t)). Qed.

(** The files after a successful [export]. *)
Lemma export_ok config results p w p' w' :
  export config results p w = (Ok p', w') →
  p' = p
  ∧ files w'
    = <[p := Xlsx (clock w) (build_sheet config results)]>
        (match files w !! p with
         | Some original => <[backup_path p (clock w) := original]> (files w)
         | None => files w
         end).
Proof.
  unfold_io.
  repeat (case_match; simplify_map_eq; try done); finish_io.
Qed.

(** Whatever escapes [export] is an [ExcelExportError] with the target path
    and an underlying failure as its cause. *)
Lemma export_raise config results p w e w' :
  export config results p w = (Raise e, w') →
  ∃ message m,
    e = ExcelExportError message (Some (path_str p)) (Some (Underlying m)).
Proof.
  unfold_io.
  repeat (case_match; simplify_map_eq; try done); finish_io; eauto.
Qed.

Ltac same_file_absurd :=
  match goal with
  | H : ?p = with_name ?p _ |- _ =>
      exfalso; exact (backup_path_ne _ _ (eq_sym H))
  end.

Ltac exists_absurd :=
  match goal with
  | H : bool_decide (is_Some ?x) = false, H' : ?x = Some _ |- _ =>
      exfalso; apply bool_decide_eq_false in H; apply H; rewrite H'; eauto
  end.

Ltac run_export :=
  unfold_io;
  repeat (case_match; simplify_map_eq; try done; try same_file_absurd;
          try exists_absurd);
  finish_io.

Lemma export_mkdir_fails config results p w m :
  faults w AtMkdir = Some m →
  (export config results p w).1
  = Raise (ExcelExportError export_message (Some (path_str p))
                            (Some (Underlying m))).
Proof. intros H. unfold_io. by rewrite H. Qed.

Lemma export_copy_fails config results p w original m :
  faults w AtMkdir = None → files w !! p = Some original →
  faults w AtCopy = Some m →
  (export config results p w).1
  = Raise (ExcelExportError export_message (Some (path_str p))
                            (Some (Underlying m))).
Proof.
  intros H1 H2 H3.
  destruct (export config results p w) as [o w'] eqn:E. revert E.
  run_export.
Qed.

Lemma export_save_fails config results p w m :
  faults w AtMkdir = None →
  (files w !! p = None ∨ faults w AtCopy = None) →
  faults w AtSave = Some m →
  (export config results p w).1
  = Raise (ExcelExportError (save_message ++ m) (Some (path_str p))
                            (Some (Underlying m))).
Proof.
  intros H1 H2 H3.
  destruct (export config results p w) as [o w'] eqn:E. revert E.
  run_export; destruct H2; simplify_eq.
Qed.

(** C6.  Whenever [export] fails at directory creation, at the backup copy
    or at the save, it raises an [ExcelExportError] whose cause is the
    underlying failure and whose [output_path] is the target path; and
    whatever [export] raises is such an error.  The save failure is wrapped
    by the [except] clause of the source; the two others reach the
    decorator. *)
Theorem C6_export_failures_are_export_errors
    (config : ExcelConfig) (results : list ProcessResult) (p : Path)
    (w : World) :
  (∀ m, faults w AtMkdir = Some m →
        (export config results p w).1
        = Raise (ExcelExportError export_message (Some (path_str p))
                                  (Some (Underlying m))))
  ∧ (∀ original m,
        faults w AtMkdir = None → files w !! p = Some original →
        faults w AtCopy = Some m →
        (export config results p w).1
        = Raise (ExcelExportError export_message (Some (path_str p))
                                  (Some (Underlying m))))
  ∧ (∀ m, faults w AtMkdir = None →
        (files w !! p = None ∨ faults w AtCopy = None) →
        faults w AtSave = Some m →
        (export config results p w).1
        = Raise (ExcelExportError (save_message ++ m) (Some (path_str p))
                                  (Some (Underlying m))))
  ∧ (∀ e, (export config results p w).1 = Raise e →
        ∃ message m,
          e = ExcelExportError message (Some (path_str p))
                               (Some (Underlying m))).
Proof.
  split; [|split; [|split]].
  - intros m. apply export_mkdir_fails.
  - intros original m. apply export_copy_fails.
  - intros m. apply export_save_fails.
  - intros e He.
    destruct (export config results p w) as [o w'] eqn:E. simpl in He.
    subst o. by eapply export_raise.
Qed.

(** The time stamp has the shape [YYYYMMDD_HHMMSS]. *)
Lemma strftime_shape t :
  String.length (strftime t) = 15
  ∧ String.get 8 (strftime t) = Some "_"%char
  ∧ ∀ i, i < 15 → i ≠ 8 →
      ∃ d, String.get i (strftime t) = Some (digit d).
Proof.
  split; [done|]. split; [done|]. intros i Hi Hne.
  do 15 (destruct i as [|i]; [try done; eexists; reflexivity|]). lia.
Qed.

(** C7.  When a file exists at the output path and [export] succeeds, the
    sibling path [<stem>_<YYYYMMDD_HHMMSS>_backup<suffix>] differs from the
    output path, lies in the same directory, holds the content that the
    output path had before the call, and the output path holds the new
    workbook.  When no file exists at the output path, no other path of the
    file system changes, whether the call succeeds or not. *)
Theorem C7_backup_of_existing_file
    (config : ExcelConfig) (results : list ProcessResult) (p : Path)
    (w : World) :
  (∀ original p' w',
      files w !! p = Some original →
      export config results p w = (Ok p', w') →
      let backup := backup_path p (clock w) in
      path_name backup
      = (stem p ++ "_" ++ strftime (clock w) ++ "_backup" ++ suffix p)%string
      ∧ path_parent backup = path_parent p
      ∧ backup ≠ p
      ∧ files w' !! backup = Some original
      ∧ files w' !! p = Some (Xlsx (clock w) (build_sheet config results)))
  ∧ (files w !! p = None →
      ∀ q, q ≠ p → files (export config results p w).2 !! q = files w !! q)
  ∧ (String.length (strftime (clock w)) = 15
     ∧ String.get 8 (strftime (clock w)) = Some "_"%char
     ∧ ∀ i, i < 15 → i ≠ 8 →
         ∃ d, String.get i (strftime (clock w)) = Some (digit d)).
Proof.
  split; [|split].
  - intros original p' w' Hold Hok. cbv zeta.
    apply export_ok in Hok as [-> Hfiles]. rewrite Hold in Hfiles.
    pose proof (backup_path_ne_target p (clock w)) as Hne.
    repeat split; try done.
    + rewrite Hfiles, lookup_insert_ne by done. by rewrite lookup_insert_eq.
    + by rewrite Hfiles, lookup_insert_eq.
  - intros Hnone q Hq.
    destruct (export config results p w) as [o w'] eqn:E. simpl.
    revert E. run_export; by rewrite lookup_insert_ne.
  - apply strftime_shape.
Qed.

(** C9.  Two successful runs with the same config and the same records,
    in any two worlds and to any two paths, produce workbooks of the same
    shape: the same populated columns, the same header row, the same
    column widths.  This holds for the file export and for the byte
    export. *)
Theorem C9_same_inputs_same_shape
    (config : ExcelConfig) (results : list ProcessResult) :
  (∀ p1 p2 w1 w2 r1 r2 w1' w2',
      export config results p1 w1 = (Ok r1, w1') →
      export config results p2 w2 = (Ok r2, w2') →
      ∃ sh1 sh2,
        files w1' !! p1 ≫= sheet_of = Some sh1
        ∧ files w2' !! p2 ≫= sheet_of = Some sh2
        ∧ same_shape sh1 sh2)
  ∧ (∀ w1 w2 b1 b2 w1' w2',
      get_binary_data config results w1 = (Ok b1, w1') →
      get_binary_data config results w2 = (Ok b2, w2') →
      ∃ sh1 sh2,
        sheet_of b1 = Some sh1 ∧ sheet_of b2 = Some sh2
        ∧ same_shape sh1 sh2).
Proof.
  split.
  - intros p1 p2 w1 w2 r1 r2 w1' w2' H1 H2.
    apply export_ok in H1 as [_ H1]. apply export_ok in H2 as [_ H2].
    exists (build_sheet config results), (build_sheet config results).
    rewrite H1, H2, !lookup_insert_eq. done.
  - intros w1 w2 b1 b2 w1' w2' H1 H2.
    apply get_binary_data_returns in H1, H2. subst b1 b2.
    exists (build_sheet config results), (build_sheet config results). done.
Qed.

(** * C10: no records *)

Lemma create_column_cells sh mr c :
  create_column sh mr c = update_cells id sh ((λ r, (r, c)) <$> seq 1 mr).
Proof.
  unfold create_column. revert sh.
  induction (seq 1 mr) as [|r l IH]; intros sh; [done|].
  simpl. by rewrite IH.
Qed.

Lemma lookup_adjust_column mr sh c (r' c' : nat) :
  is_Some (ws_cells (adjust_column mr sh c) !! (r', c')) →
  1 ≤ r' ≤ mr ∨ is_Some (ws_cells sh !! (r', c')).
Proof.
  unfold adjust_column, set_width. simpl.
  rewrite create_column_cells, lookup_update_cells.
  intros [Hin|H]; [left|by right].
  apply list_elem_of_fmap in Hin as (r & [= -> ->] & Hr).
  apply elem_of_seq in Hr. lia.
Qed.

Lemma lookup_adjust_columns mr l sh (r c : nat) :
  is_Some (ws_cells (foldl (adjust_column mr) sh l) !! (r, c)) →
  1 ≤ r ≤ mr ∨ is_Some (ws_cells sh !! (r, c)).
Proof.
  revert sh. induction l as [|x l IH]; intros sh H; [by right|].
  simpl in H. apply IH in H as [H|H]; [by left|].
  by apply lookup_adjust_column in H.
Qed.

Lemma lookup_adjust_column_widths sh (r c : nat) :
  is_Some (ws_cells (_adjust_column_widths sh) !! (r, c)) →
  1 ≤ r ≤ max_row sh ∨ is_Some (ws_cells sh !! (r, c)).
Proof.
  unfold _adjust_column_widths.
  destruct (map_to_list (ws_cells sh)); [by right|].
  apply lookup_adjust_columns.
Qed.

Lemma max_row_le sh n :
  1 ≤ n → (∀ r c, is_Some (ws_cells sh !! (r, c)) → r ≤ n) →
  max_row sh ≤ n.
Proof.
  intros Hn H. unfold max_row.
  destruct (rows_of sh) as [|r0 l] eqn:E; [done|].
  apply max_list_bound. intros r Hr. rewrite <- E in Hr.
  unfold rows_of in Hr.
  apply list_elem_of_fmap in Hr as ([[r' c'] cell] & -> & Hin).
  apply elem_of_map_to_list in Hin. apply (H r' c'). eauto.
Qed.

Lemma header_sheet_rows config (r c : nat) :
  is_Some (ws_cells (written_sheet config []) !! (r, c)) → r = 1.
Proof.
  unfold written_sheet, _add_data. simpl. rewrite set_headers_cells.
  destruct (decide (r = 1)); [done|]. by intros [? ?].
Qed.

Lemma header_sheet_cell config col label :
  headers config !! col = Some label →
  ws_cells (written_sheet config []) !! (1, col)
  = Some (with_value (VStr label) new_cell).
Proof.
  intros H. unfold written_sheet, _add_data. simpl.
  by rewrite set_headers_cells, decide_True, H.
Qed.

Lemma header_only_rows config (r c : nat) :
  is_Some (ws_cells (build_sheet config []) !! (r, c)) → r = 1.
Proof.
  rewrite build_sheet_unfold. fold (written_sheet config []).
  intros H. apply lookup_apply_styles in H as [H|[H|H]]; [simpl in H; lia|lia|].
  apply lookup_adjust_column_widths in H as [H|H].
  - assert (max_row (written_sheet config []) ≤ 1); [|lia].
    apply max_row_le; [done|]. intros r' c' H'.
    by rewrite (header_sheet_rows config r' c' H').
  - by eapply header_sheet_rows.
Qed.

Lemma header_only_width config col label :
  headers config !! col = Some label → 1 ≤ col →
  ws_widths (build_sheet config []) !! col
  = Some (adjusted_width (length label)).
Proof.
  intros H Hcol. rewrite build_sheet_widths.
  pose proof (header_sheet_cell config col label H) as Hcell.
  assert (is_Some (ws_cells (written_sheet config []) !! (1, col))) as Hsome
    by eauto.
  rewrite (adjust_column_widths_nonempty _ 1 col Hsome).
  rewrite widths_adjust_columns, decide_True.
  - do 2 f_equal.
    assert (max_row (written_sheet config []) = 1) as ->.
    { pose proof (max_row_ge _ _ _ Hsome).
      assert (max_row (written_sheet config []) ≤ 1); [|lia].
      apply max_row_le; [done|]. intros r' c' H'.
      by rewrite (header_sheet_rows config r' c' H'). }
    unfold grid_max, peek. simpl. rewrite Hcell. simpl.
    unfold str_len0. simpl. lia.
  - apply elem_of_seq. pose proof (max_column_ge _ _ _ Hsome). lia.
Qed.

Ltac no_fault :=
  match goal with
  | Hq : ∀ s, faults ?w s = None, H : faults ?w _ = Some _ |- _ =>
      rewrite Hq in H; discriminate
  end.

(** Without I/O failures both operations succeed. *)
Lemma export_no_faults config results p w :
  (∀ s, faults w s = None) →
  (export config results p w).1 = Ok p
  ∧ files (export config results p w).2 !! p
    = Some (Xlsx (clock w) (build_sheet config results)).
Proof.
  intros Hq. destruct (export config results p w) as [o w'] eqn:E.
  revert E. unfold_io.
  repeat (case_match; simplify_map_eq; try done; try same_file_absurd;
          try exists_absurd; try no_fault);
  finish_io; by rewrite lookup_insert_eq.
Qed.

Lemma get_binary_data_no_faults config results w :
  (∀ s, faults w s = None) →
  (get_binary_data config results w).1
  = Ok (Xlsx (clock w) (build_sheet config results)).
Proof.
  intros Hq. destruct (get_binary_data config results w) as [o w'] eqn:E.
  revert E. unfold_io.
  repeat (case_match; simplify_map_eq; try done; try no_fault);
  finish_io.
Qed.

(** C10.  With no records and no I/O failure, [export] returns the path and
    writes, and [get_binary_data] returns, the workbook built from the
    config alone.  In that workbook every cell lies in row 1; each label of
    the config is the value of its header cell; the cells of row 1 in
    columns [1..columnCount] carry the header style; each header column has
    the width computed from its label; and the data loop and the data-row
    style loop run zero times. *)
Theorem C10_no_records_header_only
    (config : ExcelConfig) (p : Path) (w : World) :
  (∀ s, faults w s = None) →
  (export config [] p w).1 = Ok p
  ∧ files (export config [] p w).2 !! p
    = Some (Xlsx (clock w) (build_sheet config []))
  ∧ (get_binary_data config [] w).1 = Ok (Xlsx (clock w) (build_sheet config []))
  ∧ (∀ r c : nat, is_Some (ws_cells (build_sheet config []) !! (r, c)) → r = 1)
  ∧ (∀ (col : nat) (label : pystr),
       headers config !! col = Some label →
       value_at (build_sheet config []) 1 col = Some (VStr label))
  ∧ (∀ col : nat, 1 ≤ col ≤ size (headers config) →
       cell_style (peek (build_sheet config []) 1 col)
       = (Some header_font, Some header_fill, Some header_alignment,
          Some thin_border))
  ∧ (∀ (col : nat) (label : pystr),
       headers config !! col = Some label → 1 ≤ col →
       ws_widths (build_sheet config []) !! col
       = Some (adjusted_width (length label)))
  ∧ (∀ sheet, _add_data sheet [] = sheet)
  ∧ (∀ sheet, _apply_styles config sheet 0
              = foldl style_header_cell sheet (seq 1 (size (headers config)))).
Proof.
  intros Hq.
  destruct (export_no_faults config [] p w Hq) as [Hexp Hfile].
  repeat split; try done.
  - by apply get_binary_data_no_faults.
  - apply header_only_rows.
  - intros col label H. apply value_at_of_peek.
    + apply build_sheet_has_cell. fold (written_sheet config []).
      rewrite (header_sheet_cell config col label H). eauto.
    + rewrite build_sheet_value. fold (written_sheet config []).
      unfold peek. by rewrite (header_sheet_cell config col label H).
  - intros col Hcol. rewrite build_sheet_peek. cbv zeta.
    by rewrite decide_True by lia.
  - intros col label H Hcol. by apply header_only_width.
Qed.

(** * The theorems at concrete inputs *)

Lemma C1_witness :
  value_at (build_sheet example_config example_results) 3 8
  = Some (VStr (ascii_text "#bob #short")).
Proof.
  apply (C1_data_rows_hold_the_nine_fields
           example_config example_results 1 example_result 7); reflexivity.
Defined.

Lemma C2_witness :
  value_at (_set_headers example_config new_sheet) 1 9
  = Some (VStr [30011; 20687]%N).
Proof.
  apply (proj1 (C2_set_headers_writes_labels_in_row_1
                  example_config new_sheet)).
  reflexivity.
Defined.

Lemma C3_witness :
  ws_widths (_adjust_column_widths example_written) !! 3
  = Some (adjusted_width (max_length example_written 3))
  ∧ max_length example_written 3 = 28.
Proof.
  split; [|reflexivity].
  apply (C3_width_is_clamped_from_longest_cell example_written 3).
  - apply (bool_decide_unpack _). vm_compute. reflexivity.
  - exists 1. vm_compute. eauto.
Defined.

Lemma C4_witness :
  ws_widths (build_sheet example_config example_results) !! 2 = Some 16.5%Q
  ∧ ws_widths (build_sheet example_config example_results) !! 3 = Some 33.0%Q
  ∧ (16.5 < 33.0)%Q.
Proof.
  assert (ws_widths (build_sheet example_config example_results) !! 2
          = Some 16.5%Q) as H1 by (vm_compute; reflexivity).
  assert (ws_widths (build_sheet example_config example_results) !! 3
          = Some 33.0%Q) as H2 by (vm_compute; reflexivity).
  split; [exact H1|]. split; [exact H2|].
  apply (proj2 (C4_widths_bounded_and_increasing
                  example_config example_results) 2 3 _ _ H1 H2).
  - vm_compute. split; reflexivity.
  - vm_compute. split; reflexivity.
  - vm_compute. lia.
Defined.

Lemma C5_witness :
  (files (get_binary_data example_config example_results disk_full_world).2
   = files disk_full_world
   ∧ dirs (get_binary_data example_config example_results disk_full_world).2
     = dirs disk_full_world)
  ∧ (files (get_binary_data example_config example_results
                            create_fails_world).2
     = files create_fails_world
     ∧ dirs (get_binary_data example_config example_results
                             create_fails_world).2
       = dirs create_fails_world)
  ∧ ((∃ e, (get_binary_data example_config example_results locked_world).1
           = Raise e)
     ∧ is_Some (files (get_binary_data example_config example_results
                                       locked_world).2
                  !! next_tmp locked_world)
     ∧ files (get_binary_data example_config example_results locked_world).2
       ≠ files locked_world).
Proof.
  split; [|split].
  - apply (proj1 (C5_temp_file_left_exactly_when_cleanup_unlink_raises
                    example_config example_results disk_full_world eq_refl)).
    reflexivity.
  - apply (proj1 (C5_temp_file_left_exactly_when_cleanup_unlink_raises
                    example_config example_results create_fails_world
                    eq_refl)).
    reflexivity.
  - apply (proj2 (C5_temp_file_left_exactly_when_cleanup_unlink_raises
                    example_config example_results locked_world eq_refl)).
    reflexivity.
Defined.

Lemma C6_witness :
  (export example_config example_results example_target mkdir_denied_world).1
  = Raise (ExcelExportError export_message (Some "out/styles.xlsx"%string)
                            (Some (Underlying "Permission denied"))).
Proof.
  apply (proj1 (C6_export_failures_are_export_errors
                  example_config example_results example_target
                  mkdir_denied_world)).
  reflexivity.
Defined.

Lemma C7_witness :
  path_name (backup_path example_target example_clock)
  = "styles_20261104_093005_backup.xlsx"%string
  ∧ files (export example_config example_results example_target
                  world_with_old_file).2
      !! backup_path example_target example_clock
    = Some (Raw [80; 75; 3; 4]%N).
Proof.
  split; [reflexivity|].
  apply (proj1 (C7_backup_of_existing_file
                  example_config example_results example_target
                  world_with_old_file)
               (Raw [80; 75; 3; 4]%N) example_target
               (export example_config example_results example_target
                       world_with_old_file).2).
  - reflexivity.
  - apply injective_projections; reflexivity.
Defined.

Lemma C8_witness :
  ∃ cell,
    ws_cells (build_sheet example_config example_results) !! (3, 8) = Some cell
    ∧ cell_style cell
      = (None, None,
         Some (mkAlignment None (Some "center"%string) (Some true)),
         Some (mkBorder (mkSide (Some "thin"%string))
                        (mkSide (Some "thin"%string))
                        (mkSide (Some "thin"%string))
                        (mkSide (Some "thin"%string)))).
Proof.
  apply (proj1 (proj2 (C8_header_and_data_styles
                         example_config example_results)) 3 8).
  - simpl. lia.
  - vm_compute. lia.
Defined.

Lemma C9_witness :
  ∃ sh1 sh2,
    files (export example_config example_results example_target
                  quiet_world).2 !! example_target ≫= sheet_of = Some sh1
    ∧ files (export example_config example_results example_target
                    world_with_old_file).2 !! example_target ≫= sheet_of
      = Some sh2
    ∧ same_shape sh1 sh2.
Proof.
  apply (proj1 (C9_same_inputs_same_shape example_config example_results)
               example_target example_target quiet_world world_with_old_file
               example_target example_target);
    apply injective_projections; reflexivity.
Defined.

Lemma C10_witness :
  (export example_config [] example_target quiet_world).1 = Ok example_target
  ∧ (∀ r c : nat,
       is_Some (ws_cells (build_sheet example_config []) !! (r, c)) → r = 1).
Proof.
  destruct (C10_no_records_header_only example_config example_target
              quiet_world) as (H1 & _ & _ & H4 & _).
  - intros s. reflexivity.
  - by split.
Defined.

(** * Further properties of the construction pipeline *)

Lemma written_sheet_header_row config results (c : nat) :
  ws_cells (written_sheet config results) !! (1, c)
  = (λ label, with_value (VStr label) new_cell) <$> headers config !! c.
Proof.
  unfold written_sheet, _add_data.
  rewrite lookup_add_rows_outside by lia.
  rewrite set_headers_cells, decide_True by done.
  by destruct (headers config !! c).
Qed.

Lemma written_sheet_unwritten config results (r c : nat) :
  r = 0 ∨ 2 + length results ≤ r ∨ (2 ≤ r ∧ ¬ (1 ≤ c ≤ 9)) →
  ws_cells (written_sheet config results) !! (r, c) = None.
Proof.
  intros H. unfold written_sheet, _add_data.
  rewrite lookup_add_rows_outside by lia.
  rewrite set_headers_cells, decide_False by lia. done.
Qed.

(** X1.  In the exported sheet, whatever the records, the cell of row 1 at a
    column of the config exists and holds the label of that column, and a
    row-1 coordinate at any other column reads as empty: the data rows never
    reach the header row. *)
Theorem X1_header_row_of_exported_sheet
    (config : ExcelConfig) (results : list ProcessResult) :
  (∀ (col : nat) (label : pystr),
      headers config !! col = Some label →
      value_at (build_sheet config results) 1 col = Some (VStr label))
  ∧ (∀ col : nat,
      headers config !! col = None →
      cell_value (peek (build_sheet config results) 1 col) = VNone).
Proof.
  split.
  - intros col label H. apply value_at_of_peek.
    + apply build_sheet_has_cell. fold (written_sheet config results).
      rewrite written_sheet_header_row, H. simpl. eauto.
    + rewrite build_sheet_value. fold (written_sheet config results).
      unfold peek. by rewrite written_sheet_header_row, H.
  - intros col H. rewrite build_sheet_value.
    fold (written_sheet config results).
    unfold peek. by rewrite written_sheet_header_row, H.
Qed.

Lemma written_sheet_row_bound config results (r c : nat) :
  is_Some (ws_cells (written_sheet config results) !! (r, c)) →
  1 ≤ r ≤ 1 + length results.
Proof.
  intros H. destruct (decide (1 ≤ r ≤ 1 + length results)); [done|].
  rewrite written_sheet_unwritten in H by lia. by destruct H.
Qed.

Lemma build_sheet_row_bound config results (r c : nat) :
  is_Some (ws_cells (build_sheet config results) !! (r, c)) →
  1 ≤ r ≤ 1 + length results.
Proof.
  rewrite build_sheet_unfold. fold (written_sheet config results).
  intros H. apply lookup_apply_styles in H as [H|[H|H]]; [lia|lia|].
  apply lookup_adjust_column_widths in H as [H|H].
  - assert (max_row (written_sheet config results) ≤ 1 + length results);
      [|lia].
    apply max_row_le; [lia|]. intros r' c' H'.
    apply written_sheet_row_bound in H'. lia.
  - by eapply written_sheet_row_bound.
Qed.

Lemma max_row_ge_1 sh :
  (∀ r c, is_Some (ws_cells sh !! (r, c)) → 1 ≤ r) → 1 ≤ max_row sh.
Proof.
  intros H. unfold max_row. destruct (rows_of sh) as [|r0 l] eqn:E; [done|].
  assert (r0 ∈ rows_of sh) as Hin by (rewrite E; left).
  unfold rows_of in Hin.
  apply list_elem_of_fmap in Hin as ([[r' c'] cell] & Hr & Hin).
  apply elem_of_map_to_list in Hin. simpl in Hr. subst r0.
  assert (1 ≤ r') by (apply (H r' c'); eauto).
  simpl. lia.
Qed.

Lemma last_row_written config results :
  results ≠ [] →
  is_Some (ws_cells (build_sheet config results)
             !! (1 + length results, 1)).
Proof.
  intros Hne. destruct (length results) as [|n] eqn:En.
  { destruct results; simpl in En; [done|lia]. }
  assert (is_Some (results !! n)) as [result Hres]
    by (apply lookup_lt_is_Some; lia).
  apply build_sheet_has_cell.
  destruct (add_rows_written 2 results
              (_set_headers config (set_title sheet_title new_sheet))
              n result 0 _ Hres eq_refl) as [Hex _].
  replace (1 + S n) with (2 + n) by lia. exact Hex.
Qed.

(** X2.  The exported sheet has exactly [1 + len(results)] rows: every cell
    lies in rows [1 .. 1 + len(results)], and [max_row] is
    [1 + len(results)], for every config, the empty one included. *)
Theorem X2_exported_sheet_row_count
    (config : ExcelConfig) (results : list ProcessResult) :
  max_row (build_sheet config results) = 1 + length results
  ∧ ∀ r c : nat,
      is_Some (ws_cells (build_sheet config results) !! (r, c)) →
      1 ≤ r ≤ 1 + length results.
Proof.
  split; [|apply build_sheet_row_bound].
  apply Nat.le_antisymm.
  - apply max_row_le; [lia|]. intros r c H.
    apply build_sheet_row_bound in H. lia.
  - destruct results as [|x l] eqn:E.
    + apply max_row_ge_1. intros r c H.
      apply build_sheet_row_bound in H. lia.
    + rewrite <- E. apply (max_row_ge _ _ 1), last_row_written. by rewrite E.
Qed.

(** X3.  The style loops range over [1..len(headers)], not over the columns
    of the config: in the exported sheet no cell outside rows
    [1 .. 1 + len(results)] and columns [1 .. len(headers)] carries a style.
    In particular a label that the config puts in a column beyond
    [len(headers)] is written but left without the header style. *)
Theorem X3_no_style_beyond_header_count
    (config : ExcelConfig) (results : list ProcessResult) :
  (∀ r c : nat,
      ¬ (1 ≤ r ≤ 1 + length results ∧ 1 ≤ c ≤ size (headers config)) →
      cell_style (peek (build_sheet config results) r c) = no_style)
  ∧ (∀ (c : nat) (label : pystr),
      headers config !! c = Some label → size (headers config) < c →
      ws_cells (build_sheet config results) !! (1, c)
      = Some (mkCell (VStr label) None None None None)).
Proof.
  split.
  - intros r c H. rewrite build_sheet_peek. cbv zeta.
    rewrite decide_False by lia. rewrite decide_False by lia.
    apply written_sheet_styles.
  - intros c label H Hc.
    assert (is_Some (ws_cells (build_sheet config results) !! (1, c))) as Hex.
    { apply build_sheet_has_cell. fold (written_sheet config results).
      rewrite written_sheet_header_row, H. simpl. eauto. }
    rewrite (lookup_of_peek _ _ _ Hex). f_equal.
    rewrite build_sheet_peek. cbv zeta.
    rewrite decide_False by lia. rewrite decide_False by lia.
    unfold peek. by rewrite written_sheet_header_row, H.
Qed.

(** X4.  [_add_data] writes into rows [2 .. 1 + len(results)] and columns
    A to I only: every other coordinate of the sheet, the header row
    included, is exactly as before (present or absent); and it changes no
    style and no column width anywhere. *)
Theorem X4_add_data_frame
    (sheet : Worksheet) (results : list ProcessResult) :
  (∀ r c : nat,
      r < 2 ∨ 2 + length results ≤ r ∨ ¬ (1 ≤ c ≤ 9) →
      ws_cells (_add_data sheet results) !! (r, c) = ws_cells sheet !! (r, c))
  ∧ (∀ r c : nat,
      cell_style (peek (_add_data sheet results) r c)
      = cell_style (peek sheet r c))
  ∧ ws_widths (_add_data sheet results) = ws_widths sheet
  ∧ ws_title (_add_data sheet results) = ws_title sheet.
Proof.
  unfold _add_data. split; [|split; [|split]].
  - intros r c H. by apply lookup_add_rows_outside.
  - intros r c. apply add_rows_keeps_styles.
  - apply add_rows_keeps_widths.
  - generalize 2. revert sheet.
    induction results as [|x l IH]; intros sheet i; [done|].
    simpl. by rewrite IH.
Qed.

Lemma adjust_column_creates mr sh c (r : nat) :
  1 ≤ r ≤ mr → is_Some (ws_cells (adjust_column mr sh c) !! (r, c)).
Proof.
  intros Hr. unfold adjust_column, set_width. simpl.
  rewrite create_column_cells, lookup_update_cells. left.
  apply list_elem_of_fmap. exists r. split; [done|]. apply elem_of_seq. lia.
Qed.

Lemma adjust_columns_creates mr l sh (r c : nat) :
  c ∈ l → 1 ≤ r ≤ mr →
  is_Some (ws_cells (foldl (adjust_column mr) sh l) !! (r, c)).
Proof.
  intros Hc Hr. revert sh. induction l as [|x l IH]; intros sh.
  { by apply elem_of_nil in Hc. }
  simpl. apply elem_of_cons in Hc as [->|Hc]; [|by apply IH].
  apply (foldl_keeps_cells (adjust_column mr)).
  - intros c. apply adjust_column_keeps_cells.
  - by apply adjust_column_creates.
Qed.

Lemma adjust_column_widths_unfold sh :
  ws_cells sh ≠ ∅ →
  _adjust_column_widths sh
  = foldl (adjust_column (max_row sh)) sh (seq 1 (max_column sh)).
Proof.
  intros Hne. unfold _adjust_column_widths.
  destruct (map_to_list (ws_cells sh)) as [|kv l] eqn:E; [|done].
  by apply map_to_list_empty_iff in E.
Qed.

(** The iteration over [sheet.columns] fills the rectangle
    [1..max_row] x [1..max_column] with cells. *)
Lemma adjust_column_widths_fills sh (r c : nat) :
  ws_cells sh ≠ ∅ → 1 ≤ r ≤ max_row sh → 1 ≤ c ≤ max_column sh →
  is_Some (ws_cells (_adjust_column_widths sh) !! (r, c)).
Proof.
  intros Hne Hr Hc. rewrite adjust_column_widths_unfold by done.
  apply adjust_columns_creates; [|done]. apply elem_of_seq. lia.
Qed.

(** X5.  A label that the config puts in column J or beyond gets no data:
    [_add_data] fills columns A to I only, and in the exported sheet the
    cells of that column in the data rows exist (the width pass creates
    them) and are empty. *)
Theorem X5_columns_beyond_the_ninth_stay_empty
    (config : ExcelConfig) (results : list ProcessResult) (n c : nat) :
  n < length results → 10 ≤ c → is_Some (headers config !! c) →
  value_at (build_sheet config results) (n + 2) c = Some VNone.
Proof.
  intros Hn Hc [label Hlabel].
  assert (is_Some (ws_cells (written_sheet config results) !! (1, c)))
    as Hheader.
  { rewrite written_sheet_header_row, Hlabel. simpl. eauto. }
  assert (is_Some (results !! n)) as [result Hres]
    by (by apply lookup_lt_is_Some).
  destruct (add_rows_written 2 results
              (_set_headers config (set_title sheet_title new_sheet))
              n result 0 _ Hres eq_refl) as [Hdata _].
  fold (_add_data (_set_headers config (set_title sheet_title new_sheet))
                  results) in Hdata.
  fold (written_sheet config results) in Hdata.
  apply value_at_of_peek.
  - rewrite build_sheet_unfold. fold (written_sheet config results).
    apply apply_styles_keeps_cells, adjust_column_widths_fills.
    + intros Hempty. rewrite Hempty in Hheader. by destruct Hheader.
    + pose proof (max_row_ge _ _ _ Hdata). lia.
    + pose proof (max_column_ge _ _ _ Hheader). lia.
  - rewrite build_sheet_value. fold (written_sheet config results).
    unfold peek. rewrite written_sheet_unwritten by lia. done.
Qed.

Lemma grid_max_of_gap sh mr c :
  (∀ r, ws_cells sh !! (r, c) = None) → grid_max sh mr c ≤ 4.
Proof.
  intros H. apply max_list_bound. intros x Hx.
  apply list_elem_of_fmap in Hx as (r & -> & _).
  unfold peek. rewrite H. done.
Qed.

(** X6.  Which columns the width pass sizes.  On a sheet without cells it
    does nothing.  Otherwise every column from 1 to [max_column] gets a
    width, a column in that range without any cell gets the minimum 10, and
    the width of every column outside the range is left as it was. *)
Theorem X6_width_pass_covers_columns_1_to_max_column (sheet : Worksheet) :
  (ws_cells sheet = ∅ → _adjust_column_widths sheet = sheet)
  ∧ (ws_cells sheet ≠ ∅ →
     ∀ c : nat, 1 ≤ c ≤ max_column sheet →
       is_Some (ws_widths (_adjust_column_widths sheet) !! c)
       ∧ ((∀ r, ws_cells sheet !! (r, c) = None) →
          ws_widths (_adjust_column_widths sheet) !! c = Some 10%Q))
  ∧ (∀ c : nat, ¬ (1 ≤ c ≤ max_column sheet) →
       ws_widths (_adjust_column_widths sheet) !! c = ws_widths sheet !! c).
Proof.
  split; [|split].
  - intros Hempty. unfold _adjust_column_widths.
    by rewrite Hempty, map_to_list_empty.
  - intros Hne c Hc. rewrite adjust_column_widths_unfold by done.
    rewrite widths_adjust_columns, decide_True by (apply elem_of_seq; lia).
    split; [eauto|]. intros Hgap. f_equal. apply adjusted_width_small.
    pose proof (grid_max_of_gap sheet (max_row sheet) c Hgap). lia.
  - intros c Hc. unfold _adjust_column_widths.
    destruct (map_to_list (ws_cells sheet)); [done|].
    rewrite widths_adjust_columns, decide_False; [done|].
    rewrite elem_of_seq. lia.
Qed.

Lemma title_update_cells F sh coords :
  ws_title (update_cells F sh coords) = ws_title sh.
Proof.
  revert sh. induction coords as [|rc l IH]; intros sh; [done|].
  rewrite update_cells_cons, IH. done.
Qed.

Lemma title_set_headers config sheet :
  ws_title (_set_headers config sheet) = ws_title sheet.
Proof.
  unfold _set_headers.
  apply (map_fold_weak_ind
           (λ sh (_ : gmap nat pystr), ws_title sh = ws_title sheet)); done.
Qed.

Lemma title_add_rows i results sheet :
  ws_title (add_rows i results sheet) = ws_title sheet.
Proof.
  revert i sheet. induction results as [|x l IH]; intros i sheet; [done|].
  simpl. by rewrite IH.
Qed.

Lemma title_adjust_column_widths sheet :
  ws_title (_adjust_column_widths sheet) = ws_title sheet.
Proof.
  unfold _adjust_column_widths.
  destruct (map_to_list (ws_cells sheet)) as [|kv kvs]; [done|].
  generalize (max_row sheet) (seq 1 (max_column sheet)). intros mr cols.
  revert sheet.
  induction cols as [|c cols IH]; intros sheet; [done|].
  simpl. rewrite IH. unfold adjust_column, set_width. simpl.
  rewrite create_column_cells. apply title_update_cells.
Qed.

Lemma title_apply_styles config sheet row_count :
  ws_title (_apply_styles config sheet row_count) = ws_title sheet.
Proof. by rewrite apply_styles_cells, !title_update_cells. Qed.

(** X7.  No step of the pipeline renames the sheet: the exported sheet
    carries the constant title, for every config and every list of
    records. *)
Theorem X7_exported_sheet_title
    (config : ExcelConfig) (results : list ProcessResult) :
  ws_title (build_sheet config results) = sheet_title
  ∧ (∀ sheet, ws_title (_set_headers config sheet) = ws_title sheet)
  ∧ (∀ sheet, ws_title (_add_data sheet results) = ws_title sheet)
  ∧ (∀ sheet, ws_title (_adjust_column_widths sheet) = ws_title sheet)
  ∧ (∀ sheet n, ws_title (_apply_styles config sheet n) = ws_title sheet).
Proof.
  split; [|split; [|split; [|split]]].
  - rewrite build_sheet_unfold, title_apply_styles,
      title_adjust_column_widths.
    unfold _add_data. by rewrite title_add_rows, title_set_headers.
  - apply title_set_headers.
  - intros sheet. apply title_add_rows.
  - apply title_adjust_column_widths.
  - intros sheet n. apply title_apply_styles.
Qed.

Lemma raw_width_mono m1 m2 :
  m1 ≤ m2 →
  (inject_Z (Z.of_nat (m1 + 2)) * 1.1 <= inject_Z (Z.of_nat (m2 + 2)) * 1.1)%Q.
Proof.
  intros H. apply Qmult_le_compat_r; [|done]. rewrite <- Zle_Qle. lia.
Qed.

Lemma adjusted_width_large m : 44 ≤ m → adjusted_width m = 50%Q.
Proof.
  intros H. unfold adjusted_width, py_max, py_min.
  pose proof (raw_width_mono 44 m H) as Hx.
  set (x := (inject_Z (Z.of_nat (m + 2)) * 1.1)%Q) in *.
  assert (50 <= x)%Q as H50.
  { eapply Qle_trans; [|exact Hx]. done. }
  apply Qle_bool_iff in H50. rewrite H50. done.
Qed.

Lemma adjusted_width_monotone m1 m2 :
  m1 ≤ m2 → (adjusted_width m1 <= adjusted_width m2)%Q.
Proof.
  intros H. pose proof (raw_width_mono m1 m2 H) as Hx.
  unfold adjusted_width, py_max, py_min.
  set (x1 := (inject_Z (Z.of_nat (m1 + 2)) * 1.1)%Q) in *.
  set (x2 := (inject_Z (Z.of_nat (m2 + 2)) * 1.1)%Q) in *.
  destruct (Qle_bool 50 x1) eqn:A1; destruct (Qle_bool 50 x2) eqn:A2;
    try (apply Qle_bool_iff in A1); try (apply Qle_bool_iff in A2);
    try (assert (¬ (50 <= x1)%Q) by (rewrite <- Qle_bool_iff; congruence));
    try (assert (¬ (50 <= x2)%Q) by (rewrite <- Qle_bool_iff; congruence));
    change (Qle_bool 50 10) with false; cbv iota;
    try (destruct (Qle_bool x1 10) eqn:B1;
         [apply Qle_bool_iff in B1
         |assert (¬ (x1 <= 10)%Q) by (rewrite <- Qle_bool_iff; congruence)]);
    try (destruct (Qle_bool x2 10) eqn:B2;
         [apply Qle_bool_iff in B2
         |assert (¬ (x2 <= 10)%Q) by (rewrite <- Qle_bool_iff; congruence)]);
    lra.
Qed.

(** X8.  The width as a function of the longest value of a column: 10 up
    to 7 characters, 50 from 44 characters on, the product [(m + 2) * 1.1]
    strictly between the bounds from 8 to 43 characters, and never smaller
    for a longer value. *)
Theorem X8_width_thresholds :
  (∀ m, m ≤ 7 → adjusted_width m = 10%Q)
  ∧ (∀ m, 44 ≤ m → adjusted_width m = 50%Q)
  ∧ (∀ m, 8 ≤ m ≤ 43 →
       adjusted_width m = (inject_Z (Z.of_nat (m + 2)) * 1.1)%Q
       ∧ (10 < adjusted_width m)%Q ∧ (adjusted_width m < 50)%Q)
  ∧ (∀ m1 m2, m1 ≤ m2 → (adjusted_width m1 <= adjusted_width m2)%Q).
Proof.
  split; [|split; [|split]].
  - apply adjusted_width_small.
  - apply adjusted_width_large.
  - intros m Hm.
    pose proof (raw_width_mono 8 m (proj1 Hm)) as Hlo.
    pose proof (raw_width_mono m 43 (proj2 Hm)) as Hhi.
    pose proof (raw_width_eq m) as Hraw.
    assert (inside_bounds m) as Hin.
    { split.
      - eapply Qlt_le_trans; [|rewrite <- Hraw; exact Hlo]. done.
      - eapply Qle_lt_trans; [rewrite <- Hraw; exact Hhi|]. done. }
    rewrite (adjusted_width_inside m Hin). split; [done|].
    destruct Hin as [H1 H2]. rewrite <- Hraw in H1, H2. by split.
  - apply adjusted_width_monotone.
Qed.

(** X9.  The binary64 computation of the source against the exact one,
    for every length below 4096: when the float computation returns one of
    the integer bounds, the exact width is that bound; when it returns the
    float product, the exact width lies strictly between the bounds and
    the float differs from it by at most [2^-40]. *)
Theorem X9_float_width_matches_exact_width (m : nat) :
  m < 4096 →
  match float_adjusted_width m with
  | PyInt z => (inject_Z z == adjusted_width m)%Q
  | PyFloat f =>
      ∃ q, Q_of_float f = Some q
           ∧ (Qabs (q - adjusted_width m) <= 1 # 2 ^ 40)%Q
           ∧ (10 < adjusted_width m)%Q ∧ (adjusted_width m < 50)%Q
  end.
Proof.
  intros Hm. pose proof (float_width_agrees m Hm) as H.
  unfold float_agrees in H.
  destruct (float_adjusted_width m) as [z|f].
  - by apply Qeq_bool_iff.
  - destruct (Q_of_float f) as [q|]; [|done].
    apply andb_prop in H as [H H3]. apply andb_prop in H as [H1 H2].
    exists q. split; [done|]. split; [by apply Qle_bool_iff|].
    apply negb_true_iff in H2, H3.
    assert (¬ (adjusted_width m <= 10)%Q)
      by (rewrite <- Qle_bool_iff; congruence).
    assert (¬ (50 <= adjusted_width m)%Q)
      by (rewrite <- Qle_bool_iff; congruence).
    split; lra.
Qed.

(** * Further properties of [export] and [get_binary_data] *)

(** X10.  The backup is what survives a failed save.  When the target
    exists, the directory and the backup copy succeed and [workbook.save]
    raises, [export] raises, the backup holds the original content, and the
    target holds the original only if the failed save had not yet truncated
    it. *)
Theorem X10_backup_survives_failed_save
    (config : ExcelConfig) (results : list ProcessResult) (p : Path)
    (w : World) (original : content) (m : string) :
  files w !! p = Some original →
  faults w AtMkdir = None → faults w AtCopy = None →
  faults w AtSave = Some m →
  (∃ e, (export config results p w).1 = Raise e)
  ∧ files (export config results p w).2 !! backup_path p (clock w)
    = Some original
  ∧ files (export config results p w).2 !! p
    = Some (if partial_write w then Truncated else original).
Proof.
  intros Hold Hmk Hcp Hsv.
  pose proof (backup_path_ne_target p (clock w)) as Hne.
  destruct (export config results p w) as [o w'] eqn:E. revert E.
  run_export.
  - eauto.
  - rewrite lookup_insert_ne by done. by rewrite lookup_insert_eq.
  - by rewrite lookup_insert_eq.
  - eauto.
  - by rewrite lookup_insert_eq.
  - by rewrite lookup_insert_ne.
Qed.

(** X11.  Nothing is overwritten without a backup.  When the directory
    cannot be created, or the target exists and the backup copy fails,
    [export] raises, and the target and every other path except the backup
    path hold what they held before: the build and the save are never
    reached.  (The failed copy may have left a file at the backup path.) *)
Theorem X11_no_overwrite_without_backup
    (config : ExcelConfig) (results : list ProcessResult) (p : Path)
    (w : World) :
  is_Some (faults w AtMkdir)
  ∨ (is_Some (files w !! p) ∧ is_Some (faults w AtCopy)) →
  (∃ e, (export config results p w).1 = Raise e)
  ∧ files (export config results p w).2 !! p = files w !! p
  ∧ (∀ q : Path, q ≠ backup_path p (clock w) →
       files (export config results p w).2 !! q = files w !! q).
Proof.
  intros H.
  assert ((∃ e, (export config results p w).1 = Raise e)
          ∧ (∀ q : Path, q ≠ backup_path p (clock w) →
               files (export config results p w).2 !! q = files w !! q))
    as [He Hframe].
  { destruct (export config results p w) as [o w'] eqn:E. revert E.
    run_export;
      try (exfalso; destruct H as [[? ?]|[[? ?] [? ?]]]; simplify_eq;
           try exists_absurd; fail);
      eauto; intros q Hq; by rewrite ?lookup_insert_ne. }
  split; [done|]. split; [|done].
  apply Hframe, backup_path_ne_target.
Qed.

(** X12.  The byte export returns what the file export writes: in one and
    the same world, when both succeed, the bytes of [get_binary_data] are
    the content that [export] leaves at the output path. *)
Theorem X12_bytes_equal_exported_file
    (config : ExcelConfig) (results : list ProcessResult) (p : Path)
    (w : World) (r : Path) (bytes : content) (w1 w2 : World) :
  export config results p w = (Ok r, w1) →
  get_binary_data config results w = (Ok bytes, w2) →
  files w1 !! p = Some bytes.
Proof.
  intros H1 H2. apply export_ok in H1 as [_ H1].
  apply get_binary_data_returns in H2. subst bytes.
  by rewrite H1, lookup_insert_eq.
Qed.

Lemma list_to_set_take_subseteq (k : nat) (l : list string) :
  (list_to_set (take k l) : gset string) ⊆ list_to_set l.
Proof.
  intros x. rewrite !elem_of_list_to_set. apply subseteq_take.
Qed.

(** X13.  What [export] may touch.  Whether it succeeds or fails, a path
    other than the output path and the backup path holds after the call
    what it held before.  No directory is removed; the directories it may
    add are the parent of the output path and the ancestors of that
    parent; and when [mkdir] succeeds they are all there after the call,
    also when a later step fails. *)
Theorem X13_export_touches_target_and_backup_only
    (config : ExcelConfig) (results : list ProcessResult) (p : Path)
    (w : World) :
  (∀ q : Path, q ≠ p → q ≠ backup_path p (clock w) →
     files (export config results p w).2 !! q = files w !! q)
  ∧ dirs w ⊆ dirs (export config results p w).2
  ∧ dirs (export config results p w).2
    ⊆ list_to_set (parents_of (path_parent p)) ∪ dirs w
  ∧ (faults w AtMkdir = None →
     dirs (export config results p w).2
     = list_to_set (parents_of (path_parent p)) ∪ dirs w).
Proof.
  pose proof (list_to_set_take_subseteq (failed_mkdir_creates w)
                (parents_of (path_parent p))) as Htake.
  split; [|split; [|split]].
  - intros q Hq Hb.
    destruct (export config results p w) as [o w'] eqn:E. revert E.
    run_export; rewrite ?lookup_insert_ne by done; done.
  - destruct (export config results p w) as [o w'] eqn:E. revert E.
    run_export; set_solver.
  - destruct (export config results p w) as [o w'] eqn:E. revert E.
    run_export; set_solver.
  - intros Hmk.
    destruct (export config results p w) as [o w'] eqn:E. revert E.
    run_export.
Qed.


(** X18.  [get_binary_data] touches the temporary path only.  Whether it
    returns or raises, and whether or not the cleanup succeeds, every other
    path holds after the call what it held before, and no directory is
    added or removed. *)
Theorem X18_byte_export_touches_the_temporary_path_only
    (config : ExcelConfig) (results : list ProcessResult) (w : World) :
  (∀ q : Path, q ≠ next_tmp w →
     files (get_binary_data config results w).2 !! q = files w !! q)
  ∧ dirs (get_binary_data config results w).2 = dirs w.
Proof.
  split.
  - intros q Hq.
    destruct (get_binary_data config results w) as [o w'] eqn:E. revert E.
    unfold_io.
    repeat (case_match; simplify_map_eq; try done); finish_io;
      rewrite ?lookup_delete_ne, ?lookup_insert_ne by done; done.
  - destruct (get_binary_data config results w) as [o w'] eqn:E. revert E.
    unfold_io.
    repeat (case_match; simplify_map_eq; try done); finish_io.
Qed.

(** X19.  What a successful [export] leaves.  When [export] returns, it
    returns its argument; the file system is the old one with the workbook
    at the output path and, if the output path held a file, that file's
    content at the backup path, and nothing else changed; the parent
    directory and its ancestors are there; and none of [mkdir], the backup
    copy (made only if the target existed) and the save has raised. *)
Theorem X19_export_success_postcondition
    (config : ExcelConfig) (results : list ProcessResult) (p : Path)
    (w : World) (r : Path) (w' : World) :
  export config results p w = (Ok r, w') →
  r = p
  ∧ files w'
    = <[p := Xlsx (clock w) (build_sheet config results)]>
        (match files w !! p with
         | Some original => <[backup_path p (clock w) := original]> (files w)
         | None => files w
         end)
  ∧ dirs w' = list_to_set (parents_of (path_parent p)) ∪ dirs w
  ∧ faults w AtMkdir = None
  ∧ (is_Some (files w !! p) → faults w AtCopy = None)
  ∧ faults w AtSave = None.
Proof.
  intros E. destruct (export_ok _ _ _ _ _ _ E) as [-> Hfiles].
  split; [done|]. split; [done|]. revert E.
  run_export.
Qed.

(** * Further properties of the backup path *)

Lemma str_app_assoc (s1 s2 s3 : string) :
  ((s1 ++ s2) ++ s3)%string = (s1 ++ (s2 ++ s3))%string.
Proof.
  induction s1 as [|a s1 IH]; [done|]. by rewrite !str_app_cons, IH.
Qed.

Lemma rfind_dot_cons a s :
  rfind_dot (String a s)
  = match rfind_dot s with
    | Some i => Some (S i)
    | None => if Ascii.eqb a "."%char then Some 0 else None
    end.
Proof. reflexivity. Qed.

Lemma rfind_dot_app (s1 s2 : string) :
  rfind_dot (s1 ++ s2)
  = match rfind_dot s2 with
    | Some i => Some (String.length s1 + i)
    | None => rfind_dot s1
    end.
Proof.
  induction s1 as [|a s1 IH].
  { change ("" ++ s2)%string with s2. by destruct (rfind_dot s2). }
  rewrite str_app_cons, !rfind_dot_cons, IH.
  destruct (rfind_dot s2); [done|]. done.
Qed.

Lemma rfind_dot_drop s i :
  rfind_dot s = Some i → rfind_dot (str_drop i s) = Some 0.
Proof.
  revert i. induction s as [|a s IH]; intros i H; [done|].
  rewrite rfind_dot_cons in H.
  destruct (rfind_dot s) as [j|] eqn:E.
  - simplify_eq. simpl. by apply IH.
  - destruct (Ascii.eqb a ".") eqn:Ea; [|done]. simplify_eq.
    change (str_drop 0 (String a s)) with (String a s).
    by rewrite rfind_dot_cons, E, Ea.
Qed.

Lemma rfind_dot_lt s i : rfind_dot s = Some i → i < String.length s.
Proof.
  revert i. induction s as [|a s IH]; intros i H; [done|].
  rewrite rfind_dot_cons in H.
  destruct (rfind_dot s) as [j|] eqn:E.
  - simplify_eq. simpl. specialize (IH j eq_refl). lia.
  - destruct (Ascii.eqb a "."); [|done]. simplify_eq. simpl. lia.
Qed.

Lemma str_length_drop n s :
  String.length (str_drop n s) = String.length s - n.
Proof.
  revert n. induction s as [|a s IH]; intros [|n]; simpl; try done.
Qed.

Lemma str_take_app (s1 s2 : string) :
  str_take (String.length s1) (s1 ++ s2) = s1.
Proof.
  induction s1 as [|a s1 IH]; [by destruct s2|].
  rewrite str_app_cons. simpl. by rewrite IH.
Qed.

Lemma str_drop_app (s1 s2 : string) :
  str_drop (String.length s1) (s1 ++ s2) = s2.
Proof.
  induction s1 as [|a s1 IH]; [by destruct s2|].
  rewrite str_app_cons. simpl. by rewrite IH.
Qed.

(** A name with an extension, as [split_name] sees it. *)
Lemma suffix_nonempty p :
  suffix p ≠ ""%string →
  ∃ i, rfind_dot (path_name p) = Some i
       ∧ 0 < i < String.length (path_name p) - 1
       ∧ stem p = str_take i (path_name p)
       ∧ suffix p = str_drop i (path_name p).
Proof.
  unfold suffix, stem, split_name.
  destruct (rfind_dot (path_name p)) as [i|] eqn:E; [|done].
  case_bool_decide; [|done]. intros _. exists i. done.
Qed.

(** X15.  The backup keeps the extension.  When the name of the file has a
    suffix in the sense of pathlib, the backup path has the same suffix,
    and its stem is the stem of the file followed by the time stamp and
    [_backup]. *)
Theorem X15_backup_keeps_the_suffix (p : Path) (t : datetime) :
  suffix p ≠ ""%string →
  suffix (backup_path p t) = suffix p
  ∧ stem (backup_path p t)
    = (stem p ++ "_" ++ strftime t ++ "_backup")%string.
Proof.
  intros Hsuf. destruct (suffix_nonempty p Hsuf) as (i & Hi & Hrange & _ & Hs).
  pose proof (rfind_dot_drop _ _ Hi) as Hdot. rewrite <- Hs in Hdot.
  assert (2 ≤ String.length (suffix p)) as Hlen
    by (rewrite Hs, str_length_drop; lia).
  set (prefix := (stem p ++ "_" ++ strftime t ++ "_backup")%string).
  assert (path_name (backup_path p t) = (prefix ++ suffix p)%string) as Hname.
  { unfold backup_path, prefix. simpl. by rewrite !str_app_assoc. }
  unfold suffix at 1, stem at 1, split_name.
  rewrite Hname, rfind_dot_app, Hdot, Nat.add_0_r.
  assert (0 < String.length prefix) as Hpre.
  { unfold prefix. rewrite !str_length_app. simpl. lia. }
  rewrite bool_decide_eq_true_2.
  - simpl. by rewrite str_drop_app, str_take_app.
  - rewrite str_length_app. lia.
Qed.

Lemma str_app_inv_head (s a b : string) :
  (s ++ a)%string = (s ++ b)%string → a = b.
Proof.
  induction s as [|c s IH]; [done|].
  rewrite !str_app_cons. intros [= H]. by apply IH.
Qed.

Lemma str_app_inj_length (a b r1 r2 : string) :
  String.length a = String.length b →
  (a ++ r1)%string = (b ++ r2)%string → a = b.
Proof.
  revert b. induction a as [|c a IH]; intros [|d b] Hlen H; try done.
  rewrite !str_app_cons in H. injection H as -> H. simpl in Hlen.
  f_equal. apply (IH b); [lia|done].
Qed.

Lemma digit_eq a b : digit a = digit b → a mod 10 = b mod 10.
Proof.
  unfold digit. intros H. apply (f_equal nat_of_ascii) in H.
  pose proof (Nat.mod_upper_bound a 10). pose proof (Nat.mod_upper_bound b 10).
  rewrite !nat_ascii_embedding in H by lia. lia.
Qed.

Lemma two_digits n m :
  n < 100 → m < 100 → digit (n / 10) = digit (m / 10) → digit n = digit m →
  n = m.
Proof.
  intros Hn Hm H1%digit_eq H0%digit_eq.
  assert (n / 10 < 10) by (apply Nat.Div0.div_lt_upper_bound; lia).
  assert (m / 10 < 10) by (apply Nat.Div0.div_lt_upper_bound; lia).
  rewrite !Nat.mod_small in H1 by done.
  pose proof (Nat.div_mod_eq n 10). pose proof (Nat.div_mod_eq m 10). lia.
Qed.

Lemma four_digits n m :
  n < 100 * 100 → m < 100 * 100 →
  digit (n / 1000) = digit (m / 1000) → digit (n / 100) = digit (m / 100) →
  digit (n / 10) = digit (m / 10) → digit n = digit m →
  n = m.
Proof.
  intros Hn Hm H3%digit_eq H2%digit_eq H1%digit_eq H0%digit_eq.
  assert (n / 1000 < 10) by (apply Nat.Div0.div_lt_upper_bound; lia).
  assert (m / 1000 < 10) by (apply Nat.Div0.div_lt_upper_bound; lia).
  rewrite !Nat.mod_small in H3 by done.
  pose proof (Nat.div_mod_eq n 10). pose proof (Nat.div_mod_eq m 10).
  pose proof (Nat.div_mod_eq (n / 10) 10).
  pose proof (Nat.div_mod_eq (m / 10) 10).
  pose proof (Nat.div_mod_eq (n / 100) 10).
  pose proof (Nat.div_mod_eq (m / 100) 10).
  replace (n / 10 / 10) with (n / 100) in *
    by (rewrite Nat.Div0.div_div; done).
  replace (m / 10 / 10) with (m / 100) in *
    by (rewrite Nat.Div0.div_div; done).
  replace (n / 100 / 10) with (n / 1000) in *
    by (rewrite Nat.Div0.div_div; done).
  replace (m / 100 / 10) with (m / 1000) in *
    by (rewrite Nat.Div0.div_div; done).
  lia.
Qed.

(** The time stamp determines the second it was taken at. *)
Lemma strftime_inj t1 t2 :
  valid_datetime t1 → valid_datetime t2 →
  strftime t1 = strftime t2 → t1 = t2.
Proof.
  destruct t1 as [y1 mo1 d1 h1 mi1 s1], t2 as [y2 mo2 d2 h2 mi2 s2].
  unfold valid_datetime. simpl. intros V1 V2 H.
  cbv [strftime pad4 pad2 String.append dt_year dt_month dt_day dt_hour
       dt_minute dt_second] in H.
  injection H as Hy3 Hy2 Hy1 Hy0 Hmo1 Hmo0 Hd1 Hd0 Hh1 Hh0 Hmi1 Hmi0 Hs1 Hs0.
  f_equal.
  - apply four_digits; try done; lia.
  - apply two_digits; try done; lia.
  - apply two_digits; try done; lia.
  - apply two_digits; try done; lia.
  - apply two_digits; try done; lia.
  - apply two_digits; try done; lia.
Qed.

Lemma backup_path_timestamp p t1 t2 :
  backup_path p t1 = backup_path p t2 → strftime t1 = strftime t2.
Proof.
  intros H. apply (f_equal path_name) in H. unfold backup_path in H.
  simpl in H. apply str_app_inv_head, str_app_inv_head in H.
  apply (str_app_inj_length _ _ _ _) in H; [done|].
  by destruct (strftime_shape t1) as [-> _], (strftime_shape t2) as [-> _].
Qed.

(** X16.  Backups taken at different seconds have different paths: on
    valid [datetime] values the backup path determines the time stamp, so
    an export never overwrites the backup of an earlier second. *)
Theorem X16_backups_of_different_seconds_differ
    (p : Path) (t1 t2 : datetime) :
  valid_datetime t1 → valid_datetime t2 → t1 ≠ t2 →
  backup_path p t1 ≠ backup_path p t2.
Proof.
  intros V1 V2 Hne H. apply Hne.
  apply strftime_inj; [done|done|]. by apply (backup_path_timestamp p).
Qed.


(** * The further properties at concrete inputs *)

Lemma X1_witness :
  value_at (build_sheet example_config example_results) 1 3
  = Some (VStr [12467; 12513; 12531; 12488]%N).
Proof.
  apply (proj1 (X1_header_row_of_exported_sheet
                  example_config example_results)).
  reflexivity.
Defined.

Lemma X3_witness :
  ws_cells (build_sheet sparse_config example_results) !! (1, 3)
  = Some (mkCell (VStr (ascii_text "Comment")) None None None None).
Proof.
  apply (proj2 (X3_no_style_beyond_header_count
                  sparse_config example_results)).
  - reflexivity.
  - vm_compute. lia.
Defined.

Lemma X5_witness :
  value_at (build_sheet wide_config example_results) 2 10 = Some VNone.
Proof.
  apply (X5_columns_beyond_the_ninth_stay_empty
           wide_config example_results 0 10).
  - simpl. lia.
  - lia.
  - vm_compute. eauto.
Defined.

Lemma X6_witness :
  ws_widths (_adjust_column_widths (written_sheet sparse_config [])) !! 2
  = Some 10%Q.
Proof.
  apply (proj1 (proj2 (X6_width_pass_covers_columns_1_to_max_column
                         (written_sheet sparse_config [])))).
  - intros H. apply (f_equal (λ m, m !! (1, 1))) in H. vm_compute in H. done.
  - vm_compute. lia.
  - intros r. destruct (decide (r = 1)) as [->|Hr].
    + reflexivity.
    + unfold written_sheet, _add_data. simpl.
      rewrite set_headers_cells, decide_False by done. reflexivity.
Defined.

Lemma X9_witness :
  match float_adjusted_width 13 with
  | PyInt z => (inject_Z z == adjusted_width 13)%Q
  | PyFloat f =>
      ∃ q, Q_of_float f = Some q
           ∧ (Qabs (q - adjusted_width 13) <= 1 # 2 ^ 40)%Q
           ∧ (10 < adjusted_width 13)%Q ∧ (adjusted_width 13 < 50)%Q
  end.
Proof. apply (X9_float_width_matches_exact_width 13). lia. Defined.

Lemma X10_witness :
  (∃ e, (export example_config example_results example_target
                save_fails_world).1 = Raise e)
  ∧ files (export example_config example_results example_target
                  save_fails_world).2
      !! backup_path example_target example_clock
    = Some (Raw [80; 75; 3; 4]%N)
  ∧ files (export example_config example_results example_target
                  save_fails_world).2 !! example_target
    = Some Truncated.
Proof.
  apply (X10_backup_survives_failed_save
           example_config example_results example_target save_fails_world
           (Raw [80; 75; 3; 4]%N) "No space left on device");
    reflexivity.
Defined.

Lemma X11_witness :
  (∃ e, (export example_config example_results example_target
                copy_denied_world).1 = Raise e)
  ∧ files (export example_config example_results example_target
                  copy_denied_world).2 !! example_target
    = files copy_denied_world !! example_target
  ∧ (∀ q : Path, q ≠ backup_path example_target (clock copy_denied_world) →
       files (export example_config example_results example_target
                     copy_denied_world).2 !! q
       = files copy_denied_world !! q).
Proof.
  apply (X11_no_overwrite_without_backup
           example_config example_results example_target copy_denied_world).
  right. split; vm_compute; eauto.
Defined.

Lemma X19_witness :
  files (export example_config example_results example_target
                world_with_old_file).2
  = <[example_target
        := Xlsx example_clock (build_sheet example_config example_results)]>
      (<[backup_path example_target example_clock := Raw [80; 75; 3; 4]%N]>
         (files world_with_old_file)).
Proof.
  apply (X19_export_success_postcondition
           example_config example_results example_target world_with_old_file
           example_target
           (export example_config example_results example_target
                   world_with_old_file).2).
  apply injective_projections; reflexivity.
Defined.

Lemma X12_witness :
  files (export example_config example_results example_target
                quiet_world).2 !! example_target
  = Some (Xlsx example_clock (build_sheet example_config example_results)).
Proof.
  apply (X12_bytes_equal_exported_file
           example_config example_results example_target quiet_world
           example_target _ _
           (get_binary_data example_config example_results quiet_world).2);
    apply injective_projections; reflexivity.
Defined.


Lemma X15_witness :
  suffix (backup_path example_target example_clock) = ".xlsx"%string
  ∧ stem (backup_path example_target example_clock)
    = "styles_20261104_093005_backup"%string.
Proof.
  apply (X15_backup_keeps_the_suffix example_target example_clock).
  vm_compute. discriminate.
Defined.

Lemma X16_witness :
  backup_path example_target example_clock
  ≠ backup_path example_target later_clock.
Proof.
  apply (X16_backups_of_different_seconds_differ
           example_target example_clock later_clock).
  - apply (bool_decide_unpack _). vm_compute. reflexivity.
  - apply (bool_decide_unpack _). vm_compute. reflexivity.
  - discriminate.
Defined.

